(** * Ingestion pipeline of the labour-market job-posting project

    A shallow embedding of [src/ingest.py]: the filename metadata
    extractor ([extract_month_from_filename]), the schema normaliser
    ([normalize_schema]), the file decoder ([read_csv_file]) and the
    dataset assembler ([ingest_all_files]), together with the part of
    pandas and pathlib those four functions call.

    Conventions.
    - Python [str] values are [string]; one [ascii] stands for one
      character, and the text handled is ASCII (on that range
      [str.lower] and [str.strip] are the functions below).
    - A [DataFrame] is column-major, as in pandas: a row index and an
      ordered list of labelled columns; labels may repeat.
    - Logging and file reads are effects: every program threads the
      trace of the events it has produced and either returns a value or
      raises an exception. *)

From Stdlib Require Import List String Ascii Bool Arith ZArith Lia DecimalString.
From Stdlib Require Import Permutation.
Import ListNotations.
Open Scope string_scope.
Open Scope list_scope.

(* ================================================================= *)
(** ** Python strings *)

Module PyStr.

(** [c in s] for a one-character [c]. *)
Fixpoint contains (c : ascii) (s : string) : bool :=
  match s with
  | EmptyString => false
  | String d s' => Ascii.eqb d c || contains c s'
  end.

(** [s.split(sep)] for a one-character separator: every occurrence
    cuts, empty pieces are kept, and the empty string gives [[""]]. *)
Fixpoint split (sep : ascii) (s : string) : list string :=
  match s with
  | EmptyString => [EmptyString]
  | String c s' =>
      if Ascii.eqb c sep then EmptyString :: split sep s'
      else match split sep s' with
           | [] => [String c EmptyString]
           | part :: parts => String c part :: parts
           end
  end.

(** [sep.join(parts)], the inverse of [split]. *)
Fixpoint join (sep : ascii) (parts : list string) : string :=
  match parts with
  | [] => EmptyString
  | [part] => part
  | part :: rest => part ++ String sep (join sep rest)
  end.

Definition is_upper (c : ascii) : bool :=
  ((65 <=? nat_of_ascii c) && (nat_of_ascii c <=? 90))%nat.

Definition lower_char (c : ascii) : ascii :=
  if is_upper c then ascii_of_nat (nat_of_ascii c + 32) else c.

(** [s.lower()]. *)
Fixpoint lower (s : string) : string :=
  match s with
  | EmptyString => EmptyString
  | String c s' => String (lower_char c) (lower s')
  end.

(** [c.isspace()] on ASCII: tab, line feed, vertical tab, form feed,
    carriage return, the four separators 0x1c-0x1f, and space. *)
Definition is_space (c : ascii) : bool :=
  let n := nat_of_ascii c in
  (((9 <=? n) && (n <=? 13)) || ((28 <=? n) && (n <=? 32)))%nat.

Fixpoint lstrip (s : string) : string :=
  match s with
  | EmptyString => EmptyString
  | String c s' => if is_space c then lstrip s' else s
  end.

Fixpoint rstrip (s : string) : string :=
  match s with
  | EmptyString => EmptyString
  | String c s' =>
      match rstrip s' with
      | EmptyString => if is_space c then EmptyString else String c EmptyString
      | t => String c t
      end
  end.

(** [s.strip()]. *)
Definition strip (s : string) : string := rstrip (lstrip s).

(** [str(n)] for a non-negative integer. *)
Definition of_nat (n : nat) : string := NilEmpty.string_of_uint (Nat.to_uint n).

(** [s.startswith(prefix)]. *)
Fixpoint startswith (prefix s : string) : bool :=
  match prefix with
  | EmptyString => true
  | String a prefix' =>
      match s with
      | EmptyString => false
      | String b s' => Ascii.eqb a b && startswith prefix' s'
      end
  end.

(** [needle in s] for strings. *)
Fixpoint is_infix (needle s : string) : bool :=
  startswith needle s ||
  match s with
  | EmptyString => false
  | String _ s' => is_infix needle s'
  end.

(** [s.endswith(suffix)]. *)
Fixpoint endswith (suffix s : string) : bool :=
  String.eqb s suffix ||
  match s with
  | EmptyString => false
  | String _ s' => endswith suffix s'
  end.

End PyStr.

(* ================================================================= *)
(** ** Effects: the event trace, exceptions and the program monad *)

Inductive Level := INFO | WARNING | ERROR.

(** [pathlib.Path], through the two attributes the pipeline reads: the
    last component of the path, and that component without its suffix. *)
Record Path := mkPath { name : string; stem : string }.

(** What a run does to the outside: a record handed to the logger, or a
    call of [pd.read_csv] on a file under an encoding. *)
Inductive Event :=
| Logged (level : Level) (msg : string)
| ReadCsv (file_path : Path) (encoding : string).

Definition Trace := list Event.

(** The subclasses of [Exception] that occur. [ParseFailure] stands for
    whatever [pd.read_csv] raises ([UnicodeDecodeError], [ParserError],
    [EmptyDataError], [OSError], ...). *)
Inductive Exception :=
| FileNotFoundError (msg : string)
| RuntimeError (msg : string)
| InvalidIndexError (msg : string)
| ValueError (msg : string)
| ParseFailure.

Inductive result (A : Type) :=
| Ok (a : A)
| Raise (e : Exception).
Arguments Ok {A} a.
Arguments Raise {A} e.

Definition Prog (A : Type) : Type := Trace -> result A * Trace.

Definition ret {A} (a : A) : Prog A := fun t => (Ok a, t).

Definition bind {A B} (m : Prog A) (k : A -> Prog B) : Prog B :=
  fun t =>
    match m t with
    | (Ok a, t') => k a t'
    | (Raise e, t') => (Raise e, t')
    end.

Definition raise {A} (e : Exception) : Prog A := fun t => (Raise e, t).

Definition lift {A} (r : result A) : Prog A := fun t => (r, t).

(** The names of the classes an exception is an instance of, most
    specific first: [FileNotFoundError] derives from [OSError], and
    every class from [Exception]. *)
Definition classes_of (e : Exception) : list string :=
  match e with
  | FileNotFoundError _ => ["FileNotFoundError"; "OSError"; "Exception"]
  | RuntimeError _ => ["RuntimeError"; "Exception"]
  | InvalidIndexError _ => ["InvalidIndexError"; "Exception"]
  | ValueError _ => ["ValueError"; "Exception"]
  | ParseFailure => ["Exception"]
  end.

(** [isinstance(e, cls)]. *)
Definition isinstance (e : Exception) (cls : string) : bool :=
  existsb (String.eqb cls) (classes_of e).

(** [try: body  except cls: handler]; an exception of another class goes
    on to the caller, and what the body logged before it raised stays in
    the trace. *)
Definition try_except {A} (body : Prog A) (cls : string)
           (handler : Exception -> Prog A) : Prog A :=
  fun t =>
    match body t with
    | (Ok a, t') => (Ok a, t')
    | (Raise e, t') => if isinstance e cls then handler e t' else (Raise e, t')
    end.

Definition emit (e : Event) : Prog unit := fun t => (Ok tt, t ++ [e]).

Declare Scope prog_scope.
Delimit Scope prog_scope with prog.
Notation "x <- m ;; k" := (bind m (fun x => k))
  (at level 61, m at next level, right associativity) : prog_scope.
Notation "m ;; k" := (bind m (fun _ => k))
  (at level 61, right associativity) : prog_scope.
Open Scope prog_scope.

Definition logger_info (msg : string) : Prog unit := emit (Logged INFO msg).
Definition logger_warning (msg : string) : Prog unit := emit (Logged WARNING msg).
Definition logger_error (msg : string) : Prog unit := emit (Logged ERROR msg).

Definition is_error_log (e : Event) : bool :=
  match e with Logged ERROR _ => true | _ => false end.

(* ================================================================= *)
(** ** Filename metadata extractor *)

(** The test of the loop body: ["-" in part and len(part) == 7]. *)
Definition is_month_part (part : string) : bool :=
  PyStr.contains "-" part && (String.length part =? 7)%nat.

(** The [for] loop returns at the first part that passes the test, so it
    is [find]; falling out of the loop warns and returns the sentinel. *)
Definition extract_month_from_filename (file_path : Path) : Prog string :=
  match find is_month_part (PyStr.split "_" (stem file_path)) with
  | Some part => ret part
  | None =>
      logger_warning ("Could not extract month from " ++ name file_path) ;;
      ret "unknown"
  end.

(* ================================================================= *)
(** ** pandas: tables *)

(** A cell: one of the two null markers ([pd.NA], and the [NaN] that the
    parser and [concat] fill in), or a value, text or number, opaque but
    for its presence. *)
Inductive cell :=
| PdNA
| NaN
| Str (s : string)
| Int (z : Z).

(** [pd.isna]. *)
Definition isna (c : cell) : bool :=
  match c with
  | PdNA | NaN => true
  | _ => false
  end.

Definition column : Type := string * list cell.

Record DataFrame := mkDataFrame { index : list cell; cols : list column }.

(** [df.columns], the labels in order. *)
Definition columns (df : DataFrame) : list string := map fst (cols df).

Definition nrows (df : DataFrame) : nat := List.length (index df).
Definition ncols (df : DataFrame) : nat := List.length (cols df).

(** Every column holds one cell per row. *)
Definition well_formed (df : DataFrame) : Prop :=
  Forall (fun c : column => List.length (snd c) = nrows df) (cols df).

(** [pd.DataFrame()]. *)
Definition empty_DataFrame : DataFrame := mkDataFrame [] [].

(** [df.empty]: some axis has length zero. *)
Definition df_empty (df : DataFrame) : bool :=
  (nrows df =? 0)%nat || (ncols df =? 0)%nat.

(** [label in df.columns]. *)
Definition label_in (label : string) (labels : list string) : bool :=
  existsb (String.eqb label) labels.

(** [df[key] = value] for a scalar: a new label is appended as the last
    column; an existing label has every column that carries it
    overwritten. *)
Definition setitem (df : DataFrame) (key : string) (value : cell) : DataFrame :=
  let filled := repeat value (nrows df) in
  if label_in key (columns df)
  then mkDataFrame (index df)
         (map (fun c : column => if String.eqb (fst c) key then (key, filled) else c)
              (cols df))
  else mkDataFrame (index df) (cols df ++ [(key, filled)]).

(** [df.columns = df.columns.str.lower().str.strip()]: the labels are
    rewritten in place, the data are not touched. *)
Definition clean_label (label : string) : string := PyStr.strip (PyStr.lower label).

Definition set_columns_lower_strip (df : DataFrame) : DataFrame :=
  mkDataFrame (index df)
    (map (fun c : column => (clean_label (fst c), snd c)) (cols df)).

(** The values stored under a label, one list per column carrying it. *)
Definition values_at (label : string) (cs : list column) : list (list cell) :=
  map snd (filter (fun c : column => String.eqb (fst c) label) cs).

(** [RangeIndex(n)]. *)
Definition RangeIndex (n : nat) : list cell :=
  map (fun i => Int (Z.of_nat i)) (seq 0 n).

(* ================================================================= *)
(** ** Schema normaliser *)

Definition REQUIRED_COLUMNS : list string :=
  ["job_title"; "noc"; "naics"; "province"; "city"; "vacancies"; "salary"].

(** The em dash of the message, as its UTF-8 bytes. *)
Definition em_dash : string :=
  String (ascii_of_nat 226) (String (ascii_of_nat 128) (String (ascii_of_nat 148) EmptyString)).

Definition missing_column_message (col : string) : string :=
  ("Missing column '" ++ col ++ "' " ++ em_dash ++ " filling with NA")%string.

(** The loop [for col in REQUIRED_COLUMNS], on the table it mutates. *)
Fixpoint fill_missing (required : list string) (df : DataFrame) : Prog DataFrame :=
  match required with
  | [] => ret df
  | col :: rest =>
      if negb (label_in col (columns df))
      then logger_warning (missing_column_message col) ;;
           fill_missing rest (setitem df col PdNA)
      else fill_missing rest df
  end.

(** [normalize_schema] changes [df] in place and returns it; its only
    caller keeps the returned table alone, so the table is passed by
    value. *)
Definition normalize_schema (df : DataFrame) : Prog DataFrame :=
  fill_missing REQUIRED_COLUMNS (set_columns_lower_strip df).

(** The required labels that a label sequence lacks, in the order of
    [REQUIRED_COLUMNS]. *)
Definition absent_from (labels required : list string) : list string :=
  filter (fun col => negb (label_in col labels)) required.
Arguments absent_from : simpl never.

(* ================================================================= *)
(** ** pandas: concatenation *)

(** [Index.unique()]: the labels in order of first appearance. *)
Fixpoint unique (labels : list string) : list string :=
  match labels with
  | [] => []
  | label :: rest =>
      label :: filter (fun other => negb (String.eqb other label)) (unique rest)
  end.

(** [Index.is_unique]. *)
Fixpoint is_unique (labels : list string) : bool :=
  match labels with
  | [] => true
  | label :: rest => negb (label_in label rest) && is_unique rest
  end.

(** [Index.equals]. *)
Definition labels_equal (a b : list string) : bool :=
  if list_eq_dec string_dec a b then true else false.

(** Reindexing one table onto a label of the combined axis: its column
    under that label, or [NaN] for each of its rows. *)
Definition take_column (label : string) (df : DataFrame) : list cell :=
  match find (fun c : column => String.eqb (fst c) label) (cols df) with
  | Some c => snd c
  | None => repeat NaN (nrows df)
  end.

(** Appending the rows of a table below columns that carry the same
    labels, position by position. *)
Definition stack_under (top : list column) (df : DataFrame) : list column :=
  map (fun p : column * column => (fst (fst p), snd (fst p) ++ snd (snd p)))
      (combine top (cols df)).

(** [pd.concat(objs, ignore_index=True)] along the rows (outer join, no
    sorting of the labels).  When every table has the same label
    sequence the tables are stacked by position.  Otherwise the combined
    axis is the union of the labels in order of first appearance and
    every table is reindexed onto it, which pandas refuses for a table
    whose labels repeat.  The row index of the result is a fresh
    [RangeIndex]. *)
Definition pd_concat (objs : list DataFrame) : result DataFrame :=
  match objs with
  | [] => Raise (ValueError "No objects to concatenate")
  | first :: others =>
      let new_index := RangeIndex (list_sum (map nrows objs)) in
      if forallb (fun df => labels_equal (columns df) (columns first)) others
      then Ok (mkDataFrame new_index (fold_left stack_under others (cols first)))
      else if forallb (fun df => is_unique (columns df)) objs
      then Ok (mkDataFrame new_index
                 (map (fun label => (label, flat_map (take_column label) objs))
                      (unique (flat_map columns objs))))
      else Raise (InvalidIndexError
                    "Reindexing only valid with uniquely valued Index objects")
  end.

(* ================================================================= *)
(** ** The environment of a run *)

(** What a run reads from outside: whether [data/raw] exists, the paths
    below it in the order the directory traversal yields them, and what
    [pd.read_csv(file_path, encoding=..., low_memory=False)] does on each
    file under each encoding (the table parsed, or the exception). *)
Record World := mkWorld {
  raw_data_exists : bool;
  raw_data_tree : list Path;
  pd_read_csv : Path -> string -> result DataFrame
}.

(** [RAW_DATA_PATH.rglob("*.csv")]: the paths below the directory whose
    last component matches the pattern; [*] matches any run of
    characters and the match is case-sensitive. *)
Definition rglob_csv (w : World) : list Path :=
  filter (fun p => PyStr.endswith ".csv" (name p)) (raw_data_tree w).

Definition ENCODINGS : list string := ["utf-8"; "utf-16"; "cp1252"; "latin1"].

Definition shape_string (df : DataFrame) : string :=
  ("(" ++ PyStr.of_nat (nrows df) ++ ", " ++ PyStr.of_nat (ncols df) ++ ")")%string.

Section Pipeline.

Variable w : World.

(** The call of [pd.read_csv], recorded in the trace. *)
Definition read_csv (file_path : Path) (encoding : string) : Prog DataFrame :=
  emit (ReadCsv file_path encoding) ;; lift (pd_read_csv w file_path encoding).

(* ================================================================= *)
(** ** File decoder *)

(** The loop [for encoding in encodings] of [read_csv_file]: the body of
    the [try] returns, the [except] clause goes on with the next
    encoding, and the code after the loop runs when none is left. *)
Fixpoint try_encodings (file_path : Path) (encodings : list string) : Prog DataFrame :=
  match encodings with
  | [] =>
      logger_error ("Could not decode " ++ name file_path ++ " with any encoding.") ;;
      ret empty_DataFrame
  | encoding :: rest =>
      try_except
        (df <- read_csv file_path encoding ;;
         logger_info ("Loaded " ++ name file_path ++ " using " ++ encoding) ;;
         df <- normalize_schema df ;;
         let df := setitem df "source_file" (Str (name file_path)) in
         month <- extract_month_from_filename file_path ;;
         let df := setitem df "source_month" (Str month) in
         ret df)
        "Exception"
        (fun _ => try_encodings file_path rest)
  end.

Definition read_csv_file (file_path : Path) : Prog DataFrame :=
  try_encodings file_path ENCODINGS.

(* ================================================================= *)
(** ** Dataset assembler *)

(** The loop [for file in tqdm(files)], with the list [dfs] it grows;
    [tqdm] yields the files in order and draws a progress bar. *)
Fixpoint ingest_loop (files : list Path) (dfs : list DataFrame) : Prog (list DataFrame) :=
  match files with
  | [] => ret dfs
  | file :: rest =>
      df <- read_csv_file file ;;
      if negb (df_empty df)
      then ingest_loop rest (dfs ++ [df])
      else ingest_loop rest dfs
  end.

Definition ingest_all_files : Prog DataFrame :=
  if negb (raw_data_exists w)
  then raise (FileNotFoundError "data/raw directory does not exist.")
  else
    let files := rglob_csv w in
    match files with
    | [] => raise (FileNotFoundError "No CSV files found in data/raw.")
    | _ =>
        logger_info ("Discovered " ++ PyStr.of_nat (List.length files) ++ " files.") ;;
        dfs <- ingest_loop files [] ;;
        match dfs with
        | [] => raise (RuntimeError
                  "No datasets were loaded. Check file encodings or file integrity.")
        | _ =>
            combined <- lift (pd_concat dfs) ;;
            logger_info ("Combined dataset shape: " ++ shape_string combined) ;;
            ret combined
        end
    end.

End Pipeline.

(* ================================================================= *)
(** ** Closed forms used in the statements *)

(** A string that is empty or begins with a character that is not white
    space. *)
Definition starts_clean (s : string) : Prop :=
  match s with
  | EmptyString => True
  | String c _ => PyStr.is_space c = false
  end.

(** The column and the warning [normalize_schema] adds for a missing
    required label. *)
Definition na_column (df : DataFrame) (col : string) : column :=
  (col, repeat PdNA (nrows df)).

Definition missing_column_warning (col : string) : Event :=
  Logged WARNING (missing_column_message col).

(** What [normalize_schema] returns and logs, in closed form. *)
Definition normalized (df : DataFrame) : DataFrame :=
  mkDataFrame (index df)
    (map (fun c : column => (clean_label (fst c), snd c)) (cols df)
     ++ map (na_column df) (absent_from (map clean_label (columns df)) REQUIRED_COLUMNS)).

Definition normalize_warnings (df : DataFrame) : list Event :=
  map missing_column_warning (absent_from (map clean_label (columns df)) REQUIRED_COLUMNS).

(** What [extract_month_from_filename] returns and logs. *)
Definition month_of (file_path : Path) : string :=
  match find is_month_part (PyStr.split "_" (stem file_path)) with
  | Some part => part
  | None => "unknown"
  end.

Definition month_warnings (file_path : Path) : list Event :=
  match find is_month_part (PyStr.split "_" (stem file_path)) with
  | Some _ => []
  | None => [Logged WARNING ("Could not extract month from " ++ name file_path)]
  end.

(** The table the [try] body builds from a parsed table. *)
Definition tagged (file_path : Path) (raw : DataFrame) : DataFrame :=
  setitem (setitem (normalized raw) "source_file" (Str (name file_path)))
          "source_month" (Str (month_of file_path)).

Definition loaded_events (file_path : Path) (encoding : string) (raw : DataFrame) : list Event :=
  [ReadCsv file_path encoding;
   Logged INFO ("Loaded " ++ name file_path ++ " using " ++ encoding)]
  ++ normalize_warnings raw ++ month_warnings file_path.

Definition failure_events (file_path : Path) (encodings : list string) : list Event :=
  map (ReadCsv file_path) encodings
  ++ [Logged ERROR ("Could not decode " ++ name file_path ++ " with any encoding.")].

(** [pd.read_csv] raises on the file under the encoding. *)
Definition fails (w : World) (file_path : Path) (encoding : string) : Prop :=
  exists e, pd_read_csv w file_path encoding = Raise e.

Definition parses (w : World) (file_path : Path) (encoding : string) : bool :=
  match pd_read_csv w file_path encoding with
  | Ok _ => true
  | Raise _ => false
  end.

(* ================================================================= *)
(** ** Example runs *)

Definition file_a : Path := mkPath "a_2023-01.csv" "a_2023-01".
Definition file_b : Path := mkPath "b_2023-02.csv" "b_2023-02".
Definition file_c : Path := mkPath "c_2023-03.csv" "c_2023-03".

Definition table_a : DataFrame :=
  mkDataFrame [Int 0; Int 1]
    [("job_title", [Str "welder"; Str "cook"]);
     ("noc", [Int 72106; Int 63200]);
     ("province", [Str "ON"; Str "QC"])].

Definition table_b : DataFrame :=
  mkDataFrame [Int 0]
    [("job_title", [Str "nurse"]);
     ("naics", [Int 622]);
     ("city", [Str "Halifax"]);
     ("vacancies", [Int 3]);
     ("salary", [NaN])].

(** Two labels that differ only by case and a trailing blank. *)
Definition table_clash : DataFrame :=
  mkDataFrame [Int 0]
    [("City", [Str "Ottawa"]); ("city ", [Str "Hull"])].

(** A file with a header line and no data line. *)
Definition table_header_only : DataFrame :=
  mkDataFrame [] [("job_title", []); ("noc", [])].

Definition is_file (file_path other : Path) : bool := String.eqb (name file_path) (name other).

(** The scenario of the specification: [file_a] is UTF-8, [file_b] is
    Latin-1 and parses under no earlier candidate; two more paths lie
    below the directory and do not match [*.csv]. *)
Definition two_files : World :=
  mkWorld true
    [file_a; mkPath "README.txt" "README"; file_b; mkPath "OLD.CSV" "OLD"]
    (fun file_path encoding =>
       if is_file file_path file_a then Ok table_a
       else if is_file file_path file_b
            then if String.eqb encoding "latin1" then Ok table_b else Raise ParseFailure
            else Raise ParseFailure).

(** [file_a] holds the clashing labels, [file_b] is as before. *)
Definition clash_files : World :=
  mkWorld true [file_a; file_b]
    (fun file_path encoding =>
       if is_file file_path file_a then Ok table_clash
       else if String.eqb encoding "latin1" then Ok table_b else Raise ParseFailure).

(** Every file parses at once and has no data line. *)
Definition header_only_files : World :=
  mkWorld true [file_a; file_b] (fun _ _ => Ok table_header_only).

(** Every file but [file_a] has a header line only; [file_a] is
    unreadable. *)
Definition header_only_but_a : World :=
  mkWorld true [file_a; file_b]
    (fun file_path encoding =>
       if is_file file_path file_a then Raise ParseFailure else Ok table_header_only).

(** No file parses under any candidate. *)
Definition garbage_files : World :=
  mkWorld true [file_a; file_b] (fun _ _ => Raise ParseFailure).

(** [file_a] as in the scenario, and [file_c] with a header line only;
    then the same with [file_c] unreadable. *)
Definition mixed_files : World :=
  mkWorld true [file_a; file_c]
    (fun file_path encoding =>
       if is_file file_path file_a then Ok table_a else Ok table_header_only).

Definition mixed_files_unreadable : World :=
  mkWorld true [file_a; file_c]
    (fun file_path encoding =>
       if is_file file_path file_a then Ok table_a else Raise ParseFailure).

(* ================================================================= *)
(** ** Views of a run used in the statements *)

(** The table [read_csv_file] returns for a file, and the events it adds
    to the trace. *)
Definition decoded (w : World) (file_path : Path) : DataFrame :=
  match fst (read_csv_file w file_path []) with
  | Ok df => df
  | Raise _ => empty_DataFrame
  end.

Definition decode_events (w : World) (file_path : Path) : list Event :=
  snd (read_csv_file w file_path []).

(** The list [dfs] at the end of the loop of [ingest_all_files]: the
    tables of the files, in order, that are not empty. *)
Definition loaded (w : World) (files : list Path) : list DataFrame :=
  filter (fun df => negb (df_empty df)) (map (decoded w) files).

Definition DISCOVERY_MISSING : Exception :=
  FileNotFoundError "data/raw directory does not exist.".
Definition DISCOVERY_EMPTY : Exception :=
  FileNotFoundError "No CSV files found in data/raw.".
Definition NO_VALID_DATA : Exception :=
  RuntimeError "No datasets were loaded. Check file encodings or file integrity.".
Definition CONCAT_REFUSED : Exception :=
  InvalidIndexError "Reindexing only valid with uniquely valued Index objects".

(** The rows of one table inside a column of the combined table: [n]
    cells from position [offset] on. *)
Definition block (offset n : nat) (values : list cell) : list cell :=
  firstn n (skipn offset values).

(** The columns of a combined table: one per key, labelled by the key,
    holding the pieces the tables contribute, one after the other. *)
Definition assembled {K : Type} (label_of : K -> string)
           (piece : K -> DataFrame -> list cell)
           (keys : list K) (objs : list DataFrame) : list column :=
  map (fun k => (label_of k, flat_map (piece k) objs)) keys.

(** Keys by position, for tables stacked position by position. *)
Definition nth_label (labels : list string) (j : nat) : string := nth j labels "".
Definition nth_values (j : nat) (df : DataFrame) : list cell :=
  snd (nth j (cols df) ("", [])).

(** A column without a null. *)
Definition full (values : list cell) : Prop := Forall (fun c => isna c = false) values.

(* ================================================================= *)
(** ** Dataset writer and entry point *)

Definition PROCESSED_DATA_PATH : string := "data/processed".

(** [PROCESSED_DATA_PATH / "job_postings.parquet"]. *)
Definition OUTPUT_FILE : string :=
  (PROCESSED_DATA_PATH ++ "/" ++ "job_postings.parquet")%string.

(** The calls that reach the output side of the file system, as they
    are made: [path.mkdir(parents=..., exist_ok=...)] and
    [df.to_parquet(path, index=...)]. *)
Inductive Call :=
| Mkdir (path : string) (parents exist_ok : bool)
| ToParquet (path : string) (df : DataFrame) (index : bool).

(** What the output side answers: whether creating [data/processed]
    raises, and whether serialising a table to [OUTPUT_FILE] raises. *)
Record Sink := mkSink {
  path_mkdir : result unit;
  df_to_parquet : DataFrame -> result unit
}.

(** Programs that log and write: they thread the trace and the list of
    calls made so far. *)
Definition Run (A : Type) : Type := Trace * list Call -> result A * (Trace * list Call).

Definition run_ret {A} (a : A) : Run A := fun s => (Ok a, s).

Definition run_bind {A B} (m : Run A) (k : A -> Run B) : Run B :=
  fun s =>
    match m s with
    | (Ok a, s') => k a s'
    | (Raise e, s') => (Raise e, s')
    end.

(** A program of the pipeline, run on the trace; it makes no call. *)
Definition logged {A} (m : Prog A) : Run A :=
  fun s => let (r, t') := m (fst s) in (r, (t', snd s)).

(** A call, recorded whether it returns or raises. *)
Definition call (c : Call) (outcome : result unit) : Run unit :=
  fun s => (outcome, (fst s, snd s ++ [c])).

Declare Scope run_scope.
Delimit Scope run_scope with run.
Notation "x <- m ;; k" := (run_bind m (fun x => k))
  (at level 61, m at next level, right associativity) : run_scope.
Notation "m ;; k" := (run_bind m (fun _ => k))
  (at level 61, right associativity) : run_scope.

Definition save_dataset (sink : Sink) (df : DataFrame) : Run unit :=
  (call (Mkdir PROCESSED_DATA_PATH true true) (path_mkdir sink) ;;
   call (ToParquet OUTPUT_FILE df false) (df_to_parquet sink df) ;;
   logged (logger_info ("Saved dataset -> " ++ OUTPUT_FILE)))%run.

(** The check mark of the last message, as its UTF-8 bytes. *)
Definition check_mark : string :=
  String (ascii_of_nat 226) (String (ascii_of_nat 156) (String (ascii_of_nat 133) EmptyString)).

Definition main (w : World) (sink : Sink) : Run unit :=
  (logged (logger_info "Starting ingestion pipeline...") ;;
   df <- logged (ingest_all_files w) ;;
   save_dataset sink df ;;
   logged (logger_info ("Ingestion complete " ++ check_mark)))%run.

(* ================================================================= *)
(** ** Further views of a run *)

(** The reads recorded in a trace, in order. *)
Definition reads_of (t : Trace) : list (Path * string) :=
  flat_map (fun e => match e with
                     | ReadCsv file_path encoding => [(file_path, encoding)]
                     | Logged _ _ => []
                     end) t.

Definition is_info_log (e : Event) : bool :=
  match e with Logged INFO _ => true | _ => false end.

Definition is_warning_log (e : Event) : bool :=
  match e with Logged WARNING _ => true | _ => false end.

(** No candidate encoding parses the file. *)
Definition undecodable (w : World) (file_path : Path) : bool :=
  forallb (fun encoding => negb (parses w file_path encoding)) ENCODINGS.

(** The tables handed to [to_parquet] in a list of calls. *)
Definition written (calls : list Call) : list DataFrame :=
  flat_map (fun c => match c with
                     | ToParquet _ df _ => [df]
                     | Mkdir _ _ _ => []
                     end) calls.

(** Worlds for the examples: a stem that follows the naming of the
    docstring, a table whose labels need cleaning only, and a directory
    where the one readable file has clashing labels. *)
Definition file_conventional : Path :=
  mkPath "job_postings_2023-01.csv" "job_postings_2023-01".

Definition table_complete : DataFrame :=
  mkDataFrame [Int 0]
    [(" Job_Title", [Str "baker"]); ("NOC", [Int 63202]); ("naics ", [Int 311]);
     ("Province", [Str "NS"]); ("CITY", [Str "Truro"]); ("Vacancies", [Int 2]);
     ("salary", [NaN]); ("Employer", [Str "Mill"])].

Definition clash_alone : World :=
  mkWorld true [file_a; file_b]
    (fun file_path encoding =>
       if is_file file_path file_a then Ok table_clash else Raise ParseFailure).

Definition two_files_reversed : World :=
  mkWorld true
    [mkPath "OLD.CSV" "OLD"; file_b; mkPath "README.txt" "README"; file_a]
    (pd_read_csv two_files).

Definition sink_ok : Sink := mkSink (Ok tt) (fun _ => Ok tt).

(** A serialiser that, like pyarrow, refuses repeated column names. *)
Definition sink_strict : Sink :=
  mkSink (Ok tt)
    (fun df => if is_unique (columns df) then Ok tt
               else Raise (ValueError "Duplicate column names found")).

(** The labels every table of a parsed file carries. *)
Definition TABLE_LABELS : list string :=
  REQUIRED_COLUMNS ++ ["source_file"; "source_month"].

(** The two conditions under which [pd_concat] accepts its tables. *)
Definition same_labels (objs : list DataFrame) : Prop :=
  forall d d', In d objs -> In d' objs -> columns d = columns d'.

Definition unique_labels (objs : list DataFrame) : Prop :=
  forall d, In d objs -> NoDup (columns d).

(** The outcome of [pd_concat] up to the order of the tables: the same
    exception, or tables with the same row count and the same labels. *)
Definition same_outcome (r r' : result DataFrame) : Prop :=
  match r, r' with
  | Ok c, Ok c' =>
      nrows c' = nrows c /\ forall label, In label (columns c') <-> In label (columns c)
  | Raise e, Raise e' => e' = e
  | _, _ => False
  end.

(** The records and calls of [save_dataset] and [main]. *)
Definition STARTING : Event := Logged INFO "Starting ingestion pipeline...".
Definition SAVED : Event := Logged INFO ("Saved dataset -> " ++ OUTPUT_FILE).
Definition COMPLETE : Event := Logged INFO ("Ingestion complete " ++ check_mark).
Definition MKDIR : Call := Mkdir PROCESSED_DATA_PATH true true.
Definition WRITE (df : DataFrame) : Call := ToParquet OUTPUT_FILE df false.

(* ================================================================= *)
(** * Properties *)

(** ** Strings *)

Lemma split_not_nil (sep : ascii) (s : string) : PyStr.split sep s <> [].
Proof.
  destruct s as [|c s']; simpl; [discriminate|].
  destruct (Ascii.eqb c sep); [discriminate|].
  destruct (PyStr.split sep s'); discriminate.
Qed.

Lemma join_split (sep : ascii) (s : string) :
  PyStr.join sep (PyStr.split sep s) = s.
Proof.
  induction s as [|c s' IH]; simpl; [reflexivity|].
  destruct (Ascii.eqb c sep) eqn:E.
  - apply Ascii.eqb_eq in E; subst c.
    pose proof (split_not_nil sep s') as Hn.
    destruct (PyStr.split sep s') as [|part parts]; [contradiction|].
    simpl in *. now rewrite IH.
  - pose proof (split_not_nil sep s') as Hn.
    destruct (PyStr.split sep s') as [|part parts]; [contradiction|].
    destruct parts as [|part' parts']; simpl in *; now rewrite <- IH.
Qed.

Lemma split_parts_free (sep : ascii) (s : string) :
  Forall (fun part => PyStr.contains sep part = false) (PyStr.split sep s).
Proof.
  induction s as [|c s' IH]; simpl.
  - constructor; [reflexivity|constructor].
  - destruct (Ascii.eqb c sep) eqn:E.
    + constructor; [reflexivity|exact IH].
    + destruct (PyStr.split sep s') as [|part parts].
      * constructor; [simpl; now rewrite E|constructor].
      * inversion IH; subst. constructor; [simpl; now rewrite E|assumption].
Qed.

Lemma split_free_prefix (sep : ascii) (part rest : string) :
  PyStr.contains sep part = false ->
  PyStr.split sep (part ++ String sep rest) = part :: PyStr.split sep rest.
Proof.
  induction part as [|c part' IH]; simpl; intros H.
  - now rewrite Ascii.eqb_refl.
  - apply orb_false_iff in H as [Hc Hp].
    rewrite Hc, (IH Hp). reflexivity.
Qed.

Lemma split_free (sep : ascii) (part : string) :
  PyStr.contains sep part = false -> PyStr.split sep part = [part].
Proof.
  induction part as [|c part' IH]; simpl; intros H; [reflexivity|].
  apply orb_false_iff in H as [Hc Hp].
  rewrite Hc, (IH Hp). reflexivity.
Qed.

(** [split] is the only way to cut a string into separator-free parts. *)
Lemma split_join (sep : ascii) (parts : list string) :
  parts <> [] ->
  Forall (fun part => PyStr.contains sep part = false) parts ->
  PyStr.split sep (PyStr.join sep parts) = parts.
Proof.
  induction parts as [|part rest IH]; intros Hn Hf; [contradiction|].
  inversion Hf as [|? ? Hp Hr]; subst.
  destruct rest as [|part' rest'].
  - simpl. now apply split_free.
  - change (PyStr.join sep (part :: part' :: rest'))
      with (part ++ String sep (PyStr.join sep (part' :: rest')))%string.
    rewrite split_free_prefix by assumption.
    rewrite IH; [reflexivity|discriminate|assumption].
Qed.

Lemma find_first {A} (f : A -> bool) (l : list A) :
  (exists before x after,
      l = before ++ x :: after /\
      Forall (fun y => f y = false) before /\ f x = true /\ find f l = Some x)
  \/ (Forall (fun y => f y = false) l /\ find f l = None).
Proof.
  induction l as [|a l IH]; simpl.
  - right. split; [constructor|reflexivity].
  - destruct (f a) eqn:E.
    + left. exists [], a, l. repeat split; [constructor|assumption].
    + destruct IH as [(before & x & after & -> & Hb & Hx & Hf)|[Hall Hf]].
      * left. exists (a :: before), x, after.
        repeat split; [constructor; assumption|assumption|assumption].
      * right. split; [constructor; assumption|assumption].
Qed.

(** ** Filename metadata extractor *)

(** C6. [extract_month_from_filename] cuts the stem at every underscore
    (the parts, joined by underscores, give the stem back and none holds
    an underscore).  Either some part holds a hyphen and has exactly 7
    characters, and then the leftmost such part is returned, whatever
    its characters are, and nothing is logged; or no part does, and then
    one warning is logged and ["unknown"] is returned. *)
Theorem extract_month_first_qualifying_part (file_path : Path) (t : Trace) :
  let parts := PyStr.split "_" (stem file_path) in
  PyStr.join "_" parts = stem file_path /\
  Forall (fun part => PyStr.contains "_" part = false) parts /\
  ((exists before part after,
       parts = before ++ part :: after /\
       Forall (fun p => PyStr.contains "-" p = false \/ String.length p <> 7) before /\
       PyStr.contains "-" part = true /\ String.length part = 7 /\
       extract_month_from_filename file_path t = (Ok part, t))
   \/
   (Forall (fun p => PyStr.contains "-" p = false \/ String.length p <> 7) parts /\
    extract_month_from_filename file_path t =
      (Ok "unknown",
       t ++ [Logged WARNING ("Could not extract month from " ++ name file_path)]))).
Proof.
  intros parts. split; [apply join_split|]. split; [apply split_parts_free|].
  assert (Hq : forall p, is_month_part p = false ->
                         PyStr.contains "-" p = false \/ String.length p <> 7).
  { intros p H. unfold is_month_part in H. apply andb_false_iff in H as [H|H].
    - now left.
    - right. now apply Nat.eqb_neq. }
  unfold extract_month_from_filename. fold parts.
  destruct (find_first is_month_part parts)
    as [(before & x & after & Hs & Hb & Hx & Hf)|[Hall Hf]]; rewrite Hf.
  - left. exists before, x, after.
    unfold is_month_part in Hx. apply andb_true_iff in Hx as [Hh Hl].
    apply Nat.eqb_eq in Hl.
    repeat split; try assumption.
    eapply Forall_impl; [|exact Hb]. exact Hq.
  - right. split; [eapply Forall_impl; [|exact Hall]; exact Hq|reflexivity].
Qed.

(** The two stems of the specification, and a part that is no date. *)
Example extract_month_examples :
  extract_month_from_filename (mkPath "report_2023-01_final-x.csv" "report_2023-01_final-x") []
    = (Ok "2023-01", []) /\
  extract_month_from_filename (mkPath "report_final.csv" "report_final") []
    = (Ok "unknown", [Logged WARNING "Could not extract month from report_final.csv"]) /\
  extract_month_from_filename (mkPath "x_ab-2023.csv" "x_ab-2023") []
    = (Ok "ab-2023", []).
Proof. repeat split. Qed.

(** ** Labels *)

Lemma lower_char_space (c : ascii) : PyStr.is_space (PyStr.lower_char c) = PyStr.is_space c.
Proof. destruct c as [[] [] [] [] [] [] [] []]; reflexivity. Qed.

Lemma lower_char_idem (c : ascii) : PyStr.lower_char (PyStr.lower_char c) = PyStr.lower_char c.
Proof. destruct c as [[] [] [] [] [] [] [] []]; reflexivity. Qed.

Lemma lower_idem (s : string) : PyStr.lower (PyStr.lower s) = PyStr.lower s.
Proof. induction s as [|c s IH]; simpl; [reflexivity|]. now rewrite lower_char_idem, IH. Qed.

Lemma lower_lstrip (s : string) : PyStr.lower (PyStr.lstrip s) = PyStr.lstrip (PyStr.lower s).
Proof.
  induction s as [|c s IH]; simpl; [reflexivity|].
  rewrite lower_char_space. destruct (PyStr.is_space c); [exact IH|reflexivity].
Qed.

Lemma lower_rstrip (s : string) : PyStr.lower (PyStr.rstrip s) = PyStr.rstrip (PyStr.lower s).
Proof.
  induction s as [|c s IH]; simpl; [reflexivity|].
  rewrite <- IH, lower_char_space.
  destruct (PyStr.rstrip s) as [|d r]; simpl; [|reflexivity].
  destruct (PyStr.is_space c); reflexivity.
Qed.

Lemma lstrip_starts_clean (s : string) : starts_clean (PyStr.lstrip s).
Proof.
  induction s as [|c s IH]; simpl; [exact I|].
  destruct (PyStr.is_space c) eqn:E; [exact IH|exact E].
Qed.

Lemma lstrip_clean (s : string) : starts_clean s -> PyStr.lstrip s = s.
Proof. destruct s as [|c s]; simpl; [reflexivity|]. now intros ->. Qed.

Lemma rstrip_starts_clean (s : string) : starts_clean s -> starts_clean (PyStr.rstrip s).
Proof.
  destruct s as [|c s]; simpl; [exact id|]. intros H.
  destruct (PyStr.rstrip s); [rewrite H|]; exact H.
Qed.

Lemma rstrip_idem (s : string) : PyStr.rstrip (PyStr.rstrip s) = PyStr.rstrip s.
Proof.
  induction s as [|c s IH]; simpl; [reflexivity|].
  destruct (PyStr.rstrip s) as [|d r] eqn:E.
  - destruct (PyStr.is_space c) eqn:Ec; simpl; [reflexivity|now rewrite Ec].
  - change (PyStr.rstrip (String c (String d r)))
      with (match PyStr.rstrip (String d r) with
            | EmptyString => if PyStr.is_space c then EmptyString else String c EmptyString
            | u => String c u
            end).
    now rewrite IH.
Qed.

Lemma strip_idem (s : string) : PyStr.strip (PyStr.strip s) = PyStr.strip s.
Proof.
  unfold PyStr.strip.
  rewrite (lstrip_clean (PyStr.rstrip (PyStr.lstrip s))).
  - apply rstrip_idem.
  - apply rstrip_starts_clean, lstrip_starts_clean.
Qed.

Lemma clean_label_idem (label : string) : clean_label (clean_label label) = clean_label label.
Proof.
  unfold clean_label, PyStr.strip.
  rewrite lower_rstrip, lower_lstrip, lower_idem.
  apply strip_idem.
Qed.

Lemma required_clean (col : string) : In col REQUIRED_COLUMNS -> clean_label col = col.
Proof.
  intros H. repeat (destruct H as [<-|H]; [reflexivity|]). destruct H.
Qed.

Lemma required_nodup : NoDup REQUIRED_COLUMNS.
Proof.
  repeat (constructor; [simpl; intros H;
                        repeat (destruct H as [H|H]; [discriminate H|]); exact H|]).
  constructor.
Qed.

Lemma label_in_iff (label : string) (labels : list string) :
  label_in label labels = true <-> In label labels.
Proof.
  unfold label_in. rewrite existsb_exists. split.
  - intros (x & Hx & E). apply String.eqb_eq in E. now subst.
  - intros H. exists label. split; [assumption|apply String.eqb_refl].
Qed.

Lemma label_in_app (label : string) (a b : list string) :
  label_in label (a ++ b) = label_in label a || label_in label b.
Proof. unfold label_in. apply existsb_app. Qed.

(** ** Schema normaliser *)

Lemma setitem_new (df : DataFrame) (key : string) (value : cell) :
  label_in key (columns df) = false ->
  setitem df key value =
    mkDataFrame (index df) (cols df ++ [(key, repeat value (nrows df))]).
Proof. intros H. unfold setitem. now rewrite H. Qed.

Lemma absent_from_snoc (labels : list string) (col : string) (rest : list string) :
  ~ In col rest ->
  absent_from (labels ++ [col]) rest = absent_from labels rest.
Proof.
  intros Hn. unfold absent_from. apply filter_ext_in. intros r Hr.
  rewrite label_in_app. simpl. rewrite orb_false_r.
  destruct (String.eqb r col) eqn:E.
  - apply String.eqb_eq in E. subst. contradiction.
  - now rewrite orb_false_r.
Qed.

Lemma absent_from_cons (labels : list string) (col : string) (rest : list string) :
  absent_from labels (col :: rest) =
    if negb (label_in col labels)
    then col :: absent_from labels rest
    else absent_from labels rest.
Proof. reflexivity. Qed.

(** The loop appends one all-[pd.NA] column, and logs one warning, per
    required label that the table lacks when the loop starts. *)
Lemma fill_missing_run (required : list string) :
  NoDup required ->
  forall (df : DataFrame) (t : Trace),
    fill_missing required df t =
      (Ok (mkDataFrame (index df)
             (cols df ++ map (na_column df) (absent_from (columns df) required))),
       t ++ map missing_column_warning (absent_from (columns df) required)).
Proof.
  induction 1 as [|col rest Hnotin Hnd IH]; intros df t.
  - cbn. rewrite !app_nil_r. now destruct df.
  - rewrite absent_from_cons. cbn [fill_missing].
    destruct (label_in col (columns df)) eqn:E; cbn [negb].
    + apply IH.
    + unfold bind, logger_warning, emit.
      rewrite IH, (setitem_new _ _ _ E). cbn [index cols nrows].
      unfold columns at 1 2. cbn [cols]. rewrite map_app. cbn [map fst].
      fold (columns df). rewrite (absent_from_snoc _ _ _ Hnotin).
      cbn [map]. rewrite <- !app_assoc. reflexivity.
Qed.

Lemma columns_set_columns (df : DataFrame) :
  columns (set_columns_lower_strip df) = map clean_label (columns df).
Proof. unfold columns; simpl. rewrite !map_map. reflexivity. Qed.

Lemma normalize_schema_run (df : DataFrame) (t : Trace) :
  normalize_schema df t = (Ok (normalized df), t ++ normalize_warnings df).
Proof.
  unfold normalize_schema. rewrite (fill_missing_run _ required_nodup).
  rewrite columns_set_columns. reflexivity.
Qed.

Lemma absent_from_spec (labels required : list string) (col : string) :
  In col (absent_from labels required) <-> In col required /\ ~ In col labels.
Proof.
  unfold absent_from. rewrite filter_In, negb_true_iff.
  split; intros [H1 H2]; split; try assumption.
  - intros Hin. apply label_in_iff in Hin. congruence.
  - destruct (label_in col labels) eqn:E; [|reflexivity].
    apply label_in_iff in E. contradiction.
Qed.

Lemma columns_normalized (df : DataFrame) :
  columns (normalized df) =
    map clean_label (columns df)
    ++ absent_from (map clean_label (columns df)) REQUIRED_COLUMNS.
Proof.
  unfold normalized, columns. cbn [cols]. rewrite map_app, !map_map.
  unfold na_column. cbn [fst]. now rewrite map_id.
Qed.

Lemma normalized_has_required (df : DataFrame) (col : string) :
  In col REQUIRED_COLUMNS -> In col (columns (normalized df)).
Proof.
  intros H. rewrite columns_normalized, in_app_iff.
  destruct (in_dec string_dec col (map clean_label (columns df))) as [Hin|Hout].
  - now left.
  - right. now apply absent_from_spec.
Qed.

Lemma startswith_app (x rest : string) : PyStr.startswith x (x ++ rest) = true.
Proof.
  induction x as [|c x IH]; simpl; [reflexivity|].
  now rewrite Ascii.eqb_refl, IH.
Qed.

Lemma is_infix_app (before x rest : string) :
  PyStr.is_infix x (before ++ x ++ rest) = true.
Proof.
  induction before as [|c before IH]; simpl.
  - pose proof (startswith_app x rest) as H.
    destruct (x ++ rest)%string; simpl; now rewrite H.
  - rewrite IH. apply orb_true_r.
Qed.

Lemma absent_from_none (labels required : list string) :
  (forall col, In col required -> In col labels) ->
  absent_from labels required = [].
Proof.
  intros H. destruct (absent_from labels required) as [|col rest] eqn:E; [reflexivity|].
  assert (Hin : In col (absent_from labels required)) by (rewrite E; now left).
  apply absent_from_spec in Hin as [Hr Hn]. elim Hn. now apply H.
Qed.

Lemma absent_from_required (labels : list string) (col : string) :
  In col (absent_from labels REQUIRED_COLUMNS) -> clean_label col = col.
Proof. intros H. apply absent_from_spec in H as [H _]. now apply required_clean. Qed.

Lemma normalized_fixed (df : DataFrame) : normalized (normalized df) = normalized df.
Proof.
  assert (Hlabels : map clean_label (columns (normalized df)) = columns (normalized df)).
  { rewrite columns_normalized, map_app, map_map.
    f_equal.
    - apply map_ext. intros. apply clean_label_idem.
    - rewrite <- (map_id (absent_from _ _)) at 2.
      apply map_ext_in. intros col Hc.
      now apply absent_from_required in Hc. }
  assert (Hcols : map (fun c : column => (clean_label (fst c), snd c)) (cols (normalized df))
                  = cols (normalized df)).
  { unfold normalized. cbn [cols]. rewrite map_app, !map_map. f_equal.
    - apply map_ext. intros c. cbn [fst snd]. now rewrite clean_label_idem.
    - apply map_ext_in. intros col Hc. unfold na_column. cbn [fst snd].
      now rewrite (absent_from_required _ _ Hc). }
  unfold normalized at 1. rewrite Hlabels, Hcols.
  rewrite absent_from_none by (intros; now apply normalized_has_required).
  cbn [map]. rewrite app_nil_r. reflexivity.
Qed.

Lemma normalized_quiet (df : DataFrame) : normalize_warnings (normalized df) = [].
Proof.
  unfold normalize_warnings.
  replace (map clean_label (columns (normalized df))) with (columns (normalized df)).
  - rewrite absent_from_none by (intros; now apply normalized_has_required). reflexivity.
  - rewrite columns_normalized, map_app, map_map. f_equal.
    + apply map_ext. intros. symmetry. apply clean_label_idem.
    + rewrite <- (map_id (absent_from _ _)) at 1.
      apply map_ext_in. intros col Hc. symmetry. now apply absent_from_required in Hc.
Qed.

(** C5, as the code has it.  [normalize_schema] returns a table whose
    labels include the seven required ones.  The required labels absent
    once the labels are lower-cased and stripped are appended, in the
    order of [REQUIRED_COLUMNS], each as a column of [pd.NA] with one
    cell per row, and each with one warning that names the missing
    column and nothing else.  The columns of the input come first, in
    their order and with their cells untouched, under the rewritten
    labels; none is removed. *)
Theorem normalize_schema_fills_required (df : DataFrame) (t : Trace) :
  let labels := map clean_label (columns df) in
  let missing := absent_from labels REQUIRED_COLUMNS in
  exists out,
    normalize_schema df t =
      (Ok out, t ++ map (fun col => Logged WARNING (missing_column_message col)) missing) /\
    (forall col, In col REQUIRED_COLUMNS -> In col (columns out)) /\
    (forall col, In col missing <-> In col REQUIRED_COLUMNS /\ ~ In col labels) /\
    index out = index df /\
    cols out =
      map (fun c : column => (clean_label (fst c), snd c)) (cols df)
      ++ map (fun col => (col, repeat PdNA (nrows df))) missing /\
    (forall col, PyStr.is_infix col (missing_column_message col) = true) /\
    (forall label, In label (columns df) -> In (clean_label label) (columns out)).
Proof.
  intros labels missing. exists (normalized df).
  split; [apply normalize_schema_run|].
  split; [intros col; apply normalized_has_required|].
  split; [intros col; apply absent_from_spec|].
  split; [reflexivity|]. split; [reflexivity|].
  split.
  - intros col. unfold missing_column_message.
    apply (is_infix_app "Missing column '" col).
  - intros label H. rewrite columns_normalized, in_app_iff. left. now apply in_map.
Qed.

(** C8. Running [normalize_schema] on its own result returns that result
    again (and logs nothing). *)
Theorem normalize_schema_idempotent (df : DataFrame) (t t' : Trace) :
  exists once t1,
    normalize_schema df t = (Ok once, t1) /\
    normalize_schema once t' = (Ok once, t').
Proof.
  exists (normalized df), (t ++ normalize_warnings df).
  split; [apply normalize_schema_run|].
  rewrite normalize_schema_run, normalized_fixed, normalized_quiet, app_nil_r.
  reflexivity.
Qed.

(** C10. [normalize_schema] neither merges nor drops columns: the table
    returned has as many columns as the input plus one per required
    label absent after the rewriting, and two columns whose distinct
    labels become equal by the rewriting both stay, at their positions
    and with their cells, under the now shared label. *)
Theorem normalize_schema_keeps_clashing_columns (df : DataFrame) (t : Trace) :
  let labels := map clean_label (columns df) in
  let missing := absent_from labels REQUIRED_COLUMNS in
  exists out t',
    normalize_schema df t = (Ok out, t') /\
    ncols out = ncols df + List.length missing /\
    NoDup missing /\
    (forall col, In col missing <-> In col REQUIRED_COLUMNS /\ ~ In col labels) /\
    (forall i j li lj vi vj,
        nth_error (cols df) i = Some (li, vi) ->
        nth_error (cols df) j = Some (lj, vj) ->
        i <> j -> li <> lj -> clean_label li = clean_label lj ->
        nth_error (cols out) i = Some (clean_label li, vi) /\
        nth_error (cols out) j = Some (clean_label li, vj)).
Proof.
  intros labels missing.
  exists (normalized df), (t ++ normalize_warnings df).
  split; [apply normalize_schema_run|].
  split.
  { unfold ncols, normalized. cbn [cols]. now rewrite length_app, !length_map. }
  split; [apply NoDup_filter, required_nodup|].
  split; [intros col; apply absent_from_spec|].
  assert (Hkeep : forall i l v, nth_error (cols df) i = Some (l, v) ->
                                nth_error (cols (normalized df)) i = Some (clean_label l, v)).
  { intros i l v H. unfold normalized. cbn [cols].
    rewrite nth_error_app1.
    - now rewrite (map_nth_error _ _ _ H).
    - rewrite length_map. apply nth_error_Some. congruence. }
  intros i j li lj vi vj Hi Hj _ _ E. split.
  - now apply Hkeep.
  - rewrite E. now apply Hkeep.
Qed.

Lemma normalize_schema_keeps_clashing_columns_witness :
  let df := mkDataFrame [Int 0] [("City", [Str "Ottawa"]); ("city ", [Str "Hull"])] in
  exists out t',
    normalize_schema df [] = (Ok out, t') /\
    ncols out = 8 /\
    nth_error (cols out) 0 = Some ("city", [Str "Ottawa"]) /\
    nth_error (cols out) 1 = Some ("city", [Str "Hull"]).
Proof.
  intros df.
  destruct (normalize_schema_keeps_clashing_columns df [])
    as (out & t' & Hrun & Hn & _ & _ & Hkeep).
  exists out, t'. split; [exact Hrun|]. split; [exact Hn|].
  apply (Hkeep 0 1 "City" "city " [Str "Ottawa"] [Str "Hull"]).
  - reflexivity.
  - reflexivity.
  - discriminate.
  - discriminate.
  - reflexivity.
Defined.

(** ** File decoder *)

Lemma extract_month_run (file_path : Path) (t : Trace) :
  extract_month_from_filename file_path t =
    (Ok (month_of file_path), t ++ month_warnings file_path).
Proof.
  unfold extract_month_from_filename, month_of, month_warnings.
  destruct (find is_month_part _); [now rewrite app_nil_r|reflexivity].
Qed.

Section DecoderFacts.

Variable w : World.


Lemma parses_false (file_path : Path) (encoding : string) :
  parses w file_path encoding = false <-> fails w file_path encoding.
Proof.
  unfold parses, fails. destruct (pd_read_csv w file_path encoding) as [raw|e].
  - split; [discriminate|intros [e He]; discriminate].
  - split; [eauto|reflexivity].
Qed.

(** Every exception is caught by [except Exception]. *)
Lemma isinstance_Exception (e : Exception) : isinstance e "Exception" = true.
Proof. destruct e; reflexivity. Qed.

Lemma try_encodings_step_ok (file_path : Path) (encoding : string)
      (rest : list string) (raw : DataFrame) (t : Trace) :
  pd_read_csv w file_path encoding = Ok raw ->
  try_encodings w file_path (encoding :: rest) t =
    (Ok (tagged file_path raw), t ++ loaded_events file_path encoding raw).
Proof.
  intros H. cbn [try_encodings].
  unfold try_except, read_csv, logger_info, bind, emit, lift, ret.
  cbv beta. rewrite H. cbv beta iota.
  rewrite normalize_schema_run. cbv beta iota.
  rewrite extract_month_run.
  unfold loaded_events, tagged. cbn [app]. rewrite <- !app_assoc. reflexivity.
Qed.

Lemma try_encodings_step_raise (file_path : Path) (encoding : string)
      (rest : list string) (t : Trace) :
  fails w file_path encoding ->
  try_encodings w file_path (encoding :: rest) t =
    try_encodings w file_path rest (t ++ [ReadCsv file_path encoding]).
Proof.
  intros [e H]. cbn [try_encodings].
  unfold try_except, read_csv, bind, emit, lift. cbv beta.
  now rewrite H, isinstance_Exception.
Qed.

Lemma try_encodings_all_fail (file_path : Path) (encodings : list string) (t : Trace) :
  Forall (fails w file_path) encodings ->
  try_encodings w file_path encodings t =
    (Ok empty_DataFrame, t ++ failure_events file_path encodings).
Proof.
  intros H. revert t. induction H as [|enc rest Hf _ IH]; intros t.
  - reflexivity.
  - rewrite (try_encodings_step_raise _ _ _ _ Hf), IH.
    unfold failure_events. cbn [map]. rewrite <- !app_assoc. reflexivity.
Qed.

Lemma try_encodings_first_success (file_path : Path) (before : list string)
      (encoding : string) (after : list string) (raw : DataFrame) (t : Trace) :
  Forall (fails w file_path) before ->
  pd_read_csv w file_path encoding = Ok raw ->
  try_encodings w file_path (before ++ encoding :: after) t =
    (Ok (tagged file_path raw),
     t ++ map (ReadCsv file_path) before ++ loaded_events file_path encoding raw).
Proof.
  intros H Hok. revert t. induction H as [|enc rest Hf _ IH]; intros t.
  - apply try_encodings_step_ok, Hok.
  - cbn [app]. rewrite (try_encodings_step_raise _ _ _ _ Hf), IH.
    cbn [map]. rewrite <- !app_assoc. reflexivity.
Qed.

(** Either every candidate fails, or one is the first to parse. *)
Lemma first_parse (file_path : Path) (encodings : list string) :
  (exists before encoding after raw,
      encodings = before ++ encoding :: after /\
      Forall (fails w file_path) before /\
      pd_read_csv w file_path encoding = Ok raw)
  \/ Forall (fails w file_path) encodings.
Proof.
  destruct (find_first (parses w file_path) encodings)
    as [(before & enc & after & Hs & Hb & Hx & _)|[Hall _]].
  - left. unfold parses in Hx.
    destruct (pd_read_csv w file_path enc) as [raw|e] eqn:E; [|discriminate].
    exists before, enc, after, raw. repeat split; try assumption.
    eapply Forall_impl; [|exact Hb]. intros a. apply parses_false.
  - right. eapply Forall_impl; [|exact Hall]. intros a. apply parses_false.
Qed.

End DecoderFacts.

(** ** Assigning a column *)

Lemma nrows_setitem (df : DataFrame) (key : string) (value : cell) :
  nrows (setitem df key value) = nrows df.
Proof. unfold setitem. destruct (label_in key (columns df)); reflexivity. Qed.

Lemma in_columns_setitem (df : DataFrame) (key : string) (value : cell) :
  In key (columns (setitem df key value)).
Proof.
  unfold setitem. destruct (label_in key (columns df)) eqn:E; unfold columns; cbn [cols].
  - apply label_in_iff in E. unfold columns in E.
    apply in_map_iff in E as (c & Hc & Hin).
    apply in_map_iff. exists (key, repeat value (nrows df)). split; [reflexivity|].
    apply in_map_iff. exists c. split; [|assumption].
    subst key. now rewrite String.eqb_refl.
  - rewrite map_app, in_app_iff. right. now left.
Qed.

Lemma columns_setitem_keeps (df : DataFrame) (key : string) (value : cell) (label : string) :
  In label (columns df) -> In label (columns (setitem df key value)).
Proof.
  unfold setitem. destruct (label_in key (columns df)); unfold columns; cbn [cols]; intros H.
  - apply in_map_iff in H as (c & Hc & Hin).
    apply in_map_iff.
    exists (if String.eqb (fst c) key then (key, repeat value (nrows df)) else c).
    split.
    + destruct (String.eqb (fst c) key) eqn:E; [|assumption].
      apply String.eqb_eq in E. cbn. congruence.
    + apply in_map_iff. now exists c.
  - rewrite map_app, in_app_iff. now left.
Qed.

Lemma columns_setitem_only (df : DataFrame) (key : string) (value : cell) (label : string) :
  In label (columns (setitem df key value)) -> label = key \/ In label (columns df).
Proof.
  unfold setitem. destruct (label_in key (columns df)); unfold columns; cbn [cols]; intros H.
  - apply in_map_iff in H as (c' & Hc' & Hin).
    apply in_map_iff in Hin as (c & Hc & Hin).
    destruct (String.eqb (fst c) key); subst.
    + now left.
    + right. now apply in_map.
  - rewrite map_app, in_app_iff in H. destruct H as [H|[H|[]]]; [now right|now left].
Qed.

(** Every column under the assigned label holds the value in each row. *)
Lemma values_at_setitem_same (df : DataFrame) (key : string) (value : cell) :
  Forall (fun values => values = repeat value (nrows df))
         (values_at key (cols (setitem df key value))).
Proof.
  apply Forall_forall. intros values H. unfold values_at in H.
  apply in_map_iff in H as (c' & <- & Hf).
  apply filter_In in Hf as [Hin E]. apply String.eqb_eq in E.
  unfold setitem in Hin. destruct (label_in key (columns df)) eqn:P; cbn [cols] in Hin.
  - apply in_map_iff in Hin as (c & Hc & _).
    destruct (String.eqb (fst c) key) eqn:Ek; subst c'; [reflexivity|].
    apply String.eqb_neq in Ek. contradiction.
  - apply in_app_iff in Hin as [Hin|[<-|[]]]; [|reflexivity].
    assert (label_in key (columns df) = true); [|congruence].
    apply label_in_iff. rewrite <- E. unfold columns. now apply in_map.
Qed.

(** The columns under any other label are left as they were. *)
Lemma values_at_setitem_other (df : DataFrame) (key : string) (value : cell) (label : string) :
  label <> key ->
  values_at label (cols (setitem df key value)) = values_at label (cols df).
Proof.
  intros Hne. unfold values_at, setitem.
  destruct (label_in key (columns df)); cbn [cols].
  - f_equal. induction (cols df) as [|c cs IH]; [reflexivity|]. cbn [map filter].
    destruct (String.eqb (fst c) key) eqn:Ek.
    + apply String.eqb_eq in Ek. cbn [fst].
      replace (String.eqb key label) with false
        by (symmetry; apply String.eqb_neq; congruence).
      replace (String.eqb (fst c) label) with false
        by (symmetry; apply String.eqb_neq; congruence).
      exact IH.
    + destruct (String.eqb (fst c) label); now rewrite IH.
  - rewrite filter_app. cbn [filter fst].
    replace (String.eqb key label) with false
      by (symmetry; apply String.eqb_neq; congruence).
    now rewrite app_nil_r.
Qed.

Lemma well_formed_setitem (df : DataFrame) (key : string) (value : cell) :
  well_formed df -> well_formed (setitem df key value).
Proof.
  unfold well_formed. intros H. rewrite nrows_setitem.
  unfold setitem. destruct (label_in key (columns df)); cbn [cols].
  - apply Forall_map. eapply Forall_impl; [|exact H]. intros c Hc.
    destruct (String.eqb (fst c) key); [cbn; apply repeat_length|exact Hc].
  - apply Forall_app. split; [exact H|].
    constructor; [cbn; apply repeat_length|constructor].
Qed.

Lemma ncols_setitem_pos (df : DataFrame) (key : string) (value : cell) :
  ncols (setitem df key value) <> 0.
Proof.
  pose proof (in_columns_setitem df key value) as H.
  unfold ncols, columns in *. destruct (cols (setitem df key value)); [destruct H|discriminate].
Qed.

(** ** The table of a parsed file *)

Lemma well_formed_normalized (df : DataFrame) : well_formed df -> well_formed (normalized df).
Proof.
  unfold well_formed, normalized. cbn [cols]. intros H.
  apply Forall_app. split.
  - apply Forall_map. eapply Forall_impl; [|exact H]. intros c Hc. exact Hc.
  - apply Forall_map, Forall_forall. intros col _. cbn. apply repeat_length.
Qed.

Lemma nrows_tagged (file_path : Path) (raw : DataFrame) :
  nrows (tagged file_path raw) = nrows raw.
Proof. unfold tagged. now rewrite !nrows_setitem. Qed.

Lemma well_formed_tagged (file_path : Path) (raw : DataFrame) :
  well_formed raw -> well_formed (tagged file_path raw).
Proof.
  intros H. unfold tagged. now apply well_formed_setitem, well_formed_setitem, well_formed_normalized.
Qed.

Lemma df_empty_tagged (file_path : Path) (raw : DataFrame) :
  df_empty (tagged file_path raw) = (nrows raw =? 0)%nat.
Proof.
  unfold df_empty. rewrite nrows_tagged.
  pose proof (ncols_setitem_pos
                (setitem (normalized raw) "source_file" (Str (name file_path)))
                "source_month" (Str (month_of file_path))) as H.
  fold (tagged file_path raw) in H. apply Nat.eqb_neq in H. rewrite H.
  apply orb_false_r.
Qed.

Lemma tagged_source_file (file_path : Path) (raw : DataFrame) :
  In "source_file" (columns (tagged file_path raw)) /\
  Forall (fun values => values = repeat (Str (name file_path)) (nrows raw))
         (values_at "source_file" (cols (tagged file_path raw))).
Proof.
  unfold tagged. split.
  - apply columns_setitem_keeps, in_columns_setitem.
  - rewrite values_at_setitem_other by discriminate.
    pose proof (values_at_setitem_same (normalized raw) "source_file" (Str (name file_path))) as H.
    exact H.
Qed.

Lemma tagged_source_month (file_path : Path) (raw : DataFrame) :
  In "source_month" (columns (tagged file_path raw)) /\
  Forall (fun values => values = repeat (Str (month_of file_path)) (nrows raw))
         (values_at "source_month" (cols (tagged file_path raw))).
Proof.
  unfold tagged. split.
  - apply in_columns_setitem.
  - pose proof (values_at_setitem_same
                  (setitem (normalized raw) "source_file" (Str (name file_path)))
                  "source_month" (Str (month_of file_path))) as H.
    rewrite nrows_setitem in H. exact H.
Qed.

(** ** File decoder *)

(** C1. [read_csv_file] returns on every path and never raises.  Either
    some candidate encoding parses the file, and the table returned is
    the one built from the parse under the first such candidate; or
    every candidate fails, and then the reads are followed by one
    error-level record that names the file, and the table returned is
    the empty one, with no row and no column. *)
Theorem read_csv_file_never_raises (w : World) (file_path : Path) (t : Trace) :
  exists df t',
    read_csv_file w file_path t = (Ok df, t') /\
    ((exists before encoding after raw norm warnings month month_log,
         ENCODINGS = before ++ encoding :: after /\
         Forall (fails w file_path) before /\
         pd_read_csv w file_path encoding = Ok raw /\
         normalize_schema raw [] = (Ok norm, warnings) /\
         extract_month_from_filename file_path [] = (Ok month, month_log) /\
         df = setitem (setitem norm "source_file" (Str (name file_path)))
                      "source_month" (Str month))
     \/
     (Forall (fails w file_path) ENCODINGS /\
      df = empty_DataFrame /\ nrows df = 0 /\ ncols df = 0 /\
      t' = t ++ map (ReadCsv file_path) ENCODINGS
             ++ [Logged ERROR ("Could not decode " ++ name file_path
                               ++ " with any encoding.")] /\
      PyStr.is_infix (name file_path)
        ("Could not decode " ++ name file_path ++ " with any encoding.") = true)).
Proof.
  unfold read_csv_file.
  destruct (first_parse w file_path ENCODINGS)
    as [(before & enc & after & raw & Hs & Hb & Hok)|Hall].
  - exists (tagged file_path raw),
      (t ++ map (ReadCsv file_path) before ++ loaded_events file_path enc raw).
    split; [rewrite Hs; now apply try_encodings_first_success|].
    left. exists before, enc, after, raw, (normalized raw), (normalize_warnings raw),
            (month_of file_path), (month_warnings file_path).
    repeat split; try assumption.
    + apply normalize_schema_run.
    + apply extract_month_run.
  - exists empty_DataFrame, (t ++ failure_events file_path ENCODINGS).
    split; [now apply try_encodings_all_fail|].
    right. repeat split; try assumption.
    apply (is_infix_app "Could not decode " (name file_path)).
Qed.

(** C4. The candidates are utf-8, utf-16, cp1252 and latin1, in this
    order.  When the candidates before one all fail and that one parses,
    [read_csv_file] reads the file under exactly those candidates, in
    order, and under none of the later ones; it then logs at info level
    the encoding that worked, runs [normalize_schema] on the parsed
    table, assigns the column [source_file] the name of the file and the
    column [source_month] the result of [extract_month_from_filename],
    and returns that table. *)
Theorem read_csv_file_first_encoding (w : World) (file_path : Path)
        (before : list string) (encoding : string) (after : list string)
        (raw : DataFrame) (t : Trace) :
  ENCODINGS = before ++ encoding :: after ->
  Forall (fails w file_path) before ->
  pd_read_csv w file_path encoding = Ok raw ->
  ENCODINGS = ["utf-8"; "utf-16"; "cp1252"; "latin1"] /\
  exists norm warnings month month_log df,
    normalize_schema raw [] = (Ok norm, warnings) /\
    extract_month_from_filename file_path [] = (Ok month, month_log) /\
    read_csv_file w file_path t =
      (Ok df,
       t ++ map (ReadCsv file_path) before
         ++ [ReadCsv file_path encoding;
             Logged INFO ("Loaded " ++ name file_path ++ " using " ++ encoding)]
         ++ warnings ++ month_log) /\
    df = setitem (setitem norm "source_file" (Str (name file_path)))
                 "source_month" (Str month) /\
    In "source_file" (columns df) /\
    Forall (fun values => values = repeat (Str (name file_path)) (nrows raw))
           (values_at "source_file" (cols df)) /\
    In "source_month" (columns df) /\
    Forall (fun values => values = repeat (Str month) (nrows raw))
           (values_at "source_month" (cols df)).
Proof.
  intros Hs Hb Hok. split; [reflexivity|].
  exists (normalized raw), (normalize_warnings raw),
         (month_of file_path), (month_warnings file_path), (tagged file_path raw).
  split; [apply normalize_schema_run|].
  split; [apply extract_month_run|].
  split; [unfold read_csv_file; rewrite Hs; now apply try_encodings_first_success|].
  split; [reflexivity|].
  destruct (tagged_source_file file_path raw) as [H1 H2].
  destruct (tagged_source_month file_path raw) as [H3 H4].
  repeat split; assumption.
Qed.

Lemma read_csv_file_first_encoding_witness :
  exists df,
    read_csv_file two_files file_b [] =
      (Ok df,
       [ReadCsv file_b "utf-8"; ReadCsv file_b "utf-16"; ReadCsv file_b "cp1252";
        ReadCsv file_b "latin1"; Logged INFO "Loaded b_2023-02.csv using latin1";
        missing_column_warning "noc"; missing_column_warning "province"]) /\
    values_at "source_file" (cols df) = [[Str "b_2023-02.csv"]] /\
    values_at "source_month" (cols df) = [[Str "2023-02"]].
Proof.
  assert (Hfail : forall enc, String.eqb enc "latin1" = false -> fails two_files file_b enc).
  { intros enc H. exists ParseFailure. cbn. now rewrite H. }
  destruct (read_csv_file_first_encoding two_files file_b
              ["utf-8"; "utf-16"; "cp1252"] "latin1" [] table_b [])
    as (_ & norm & warnings & month & month_log & df & Hn & Hm & Hrun & Hdf & _).
  - reflexivity.
  - repeat constructor; apply Hfail; reflexivity.
  - reflexivity.
  - exists df. vm_compute in Hn, Hm.
    injection Hn as <- <-. injection Hm as <- <-.
    split; [exact Hrun|]. subst df. split; reflexivity.
Defined.

(** The warning for a missing column does not name the file it was
    missing from: the decoder of [file_b] logs one for [noc], and the
    text holds neither the name nor the stem of the file. *)
Lemma missing_column_warning_omits_source :
  exists msg,
    In (Logged WARNING msg) (snd (read_csv_file two_files file_b [])) /\
    PyStr.is_infix "noc" msg = true /\
    PyStr.is_infix (name file_b) msg = false /\
    PyStr.is_infix (stem file_b) msg = false.
Proof.
  exists (missing_column_message "noc"). split; [|repeat split].
  vm_compute. do 5 right. now left.
Qed.

(** ** Dataset assembler: the loop *)

Lemma read_csv_file_run (w : World) (file_path : Path) (t : Trace) :
  read_csv_file w file_path t = (Ok (decoded w file_path), t ++ decode_events w file_path).
Proof.
  unfold decoded, decode_events, read_csv_file.
  destruct (first_parse w file_path ENCODINGS)
    as [(before & enc & after & raw & Hs & Hb & Hok)|Hall].
  - rewrite Hs, !(try_encodings_first_success w _ _ _ _ _ _ Hb Hok). reflexivity.
  - rewrite !(try_encodings_all_fail w _ _ _ Hall). reflexivity.
Qed.

(** The two ways a file is decoded. *)
Lemma decoded_cases (w : World) (file_path : Path) :
  (exists before encoding after raw,
      ENCODINGS = before ++ encoding :: after /\
      Forall (fails w file_path) before /\
      pd_read_csv w file_path encoding = Ok raw /\
      decoded w file_path = tagged file_path raw /\
      decode_events w file_path =
        map (ReadCsv file_path) before ++ loaded_events file_path encoding raw)
  \/ (Forall (fails w file_path) ENCODINGS /\
      decoded w file_path = empty_DataFrame /\
      decode_events w file_path = failure_events file_path ENCODINGS).
Proof.
  unfold decoded, decode_events, read_csv_file.
  destruct (first_parse w file_path ENCODINGS)
    as [(before & enc & after & raw & Hs & Hb & Hok)|Hall].
  - left. exists before, enc, after, raw.
    rewrite Hs at 2 3. rewrite (try_encodings_first_success w _ _ _ _ _ _ Hb Hok).
    repeat split; assumption.
  - right. rewrite (try_encodings_all_fail w _ _ _ Hall). repeat split; assumption.
Qed.

Lemma ingest_loop_run (w : World) (files : list Path) :
  forall (dfs : list DataFrame) (t : Trace),
    ingest_loop w files dfs t =
      (Ok (dfs ++ loaded w files), t ++ flat_map (decode_events w) files).
Proof.
  induction files as [|file rest IH]; intros dfs t.
  - cbn. now rewrite !app_nil_r.
  - cbn [ingest_loop]. unfold bind. rewrite read_csv_file_run.
    unfold loaded. cbn [map filter flat_map].
    destruct (df_empty (decoded w file)); cbn [negb]; rewrite IH; unfold loaded.
    + now rewrite <- app_assoc.
    + now rewrite <- !app_assoc.
Qed.

Lemma ingest_all_files_run (w : World) (t : Trace) :
  raw_data_exists w = true ->
  rglob_csv w <> [] ->
  let t1 := t ++ [Logged INFO ("Discovered " ++ PyStr.of_nat (List.length (rglob_csv w))
                               ++ " files.")]
              ++ flat_map (decode_events w) (rglob_csv w) in
  ingest_all_files w t =
    match loaded w (rglob_csv w) with
    | [] => (Raise NO_VALID_DATA, t1)
    | dfs =>
        match pd_concat dfs with
        | Ok combined =>
            (Ok combined,
             t1 ++ [Logged INFO ("Combined dataset shape: " ++ shape_string combined)])
        | Raise e => (Raise e, t1)
        end
    end.
Proof.
  intros He Hf t1. unfold ingest_all_files. rewrite He. cbn [negb].
  destruct (rglob_csv w) as [|file files] eqn:E; [contradiction|].
  unfold bind at 1. unfold logger_info at 1. unfold emit. 
  unfold bind at 1. rewrite ingest_loop_run. cbn [app].
  subst t1. rewrite <- app_assoc.
  destruct (loaded w (file :: files)) as [|df dfs]; [reflexivity|].
  unfold bind, lift, logger_info, emit, ret.
  destruct (pd_concat (df :: dfs)); reflexivity.
Qed.

(** ** Lists *)

Lemma map_nth_seq {A} (d : A) (l : list A) :
  map (fun j => nth j l d) (seq 0 (List.length l)) = l.
Proof.
  apply (nth_ext _ _ d d).
  - now rewrite length_map, length_seq.
  - intros n Hn. rewrite length_map, length_seq in Hn.
    rewrite (nth_indep _ _ (nth 0 l d)) by now rewrite length_map, length_seq.
    rewrite (map_nth (fun j => nth j l d) (seq 0 (List.length l)) 0 n).
    now rewrite seq_nth.
Qed.

Lemma combine_map_same {A B C} (f : A -> B) (g : A -> C) (l : list A) :
  combine (map f l) (map g l) = map (fun x => (f x, g x)) l.
Proof. induction l as [|x l IH]; cbn; [reflexivity|now rewrite IH]. Qed.

Lemma filter_map_swap {A B} (f : A -> B) (p : B -> bool) (l : list A) :
  filter p (map f l) = map f (filter (fun x => p (f x)) l).
Proof.
  induction l as [|x l IH]; cbn; [reflexivity|].
  destruct (p (f x)); cbn; now rewrite IH.
Qed.

Lemma filter_none {A} (p : A -> bool) (l : list A) :
  (forall x, In x l -> p x = false) -> filter p l = [].
Proof.
  induction l as [|y l IH]; intros H; [reflexivity|].
  cbn. rewrite (H y) by now left. apply IH. intros x Hx. apply H. now right.
Qed.

Lemma filter_eq_nodup (x : string) (l : list string) :
  NoDup l -> In x l -> filter (fun k => String.eqb k x) l = [x].
Proof.
  induction 1 as [|y l Hy Hnd IH]; intros Hin; [destruct Hin|].
  cbn [filter]. destruct (String.eqb y x) eqn:E.
  - apply String.eqb_eq in E. subst y. f_equal.
    apply filter_none. intros z Hz. apply String.eqb_neq. intros ->. contradiction.
  - apply String.eqb_neq in E. destruct Hin as [->|Hin]; [contradiction|]. now apply IH.
Qed.

Lemma length_flat_map_rows (f : DataFrame -> list cell) (objs : list DataFrame) :
  Forall (fun d => List.length (f d) = nrows d) objs ->
  List.length (flat_map f objs) = list_sum (map nrows objs).
Proof.
  induction 1 as [|d objs Hd _ IH]; [reflexivity|].
  cbn. now rewrite length_app, Hd, IH.
Qed.

(** The piece of a table sits in the combined column at the offset of
    the rows of the tables before it. *)
Lemma block_flat_map (f : DataFrame -> list cell) (above : list DataFrame)
      (d : DataFrame) (below : list DataFrame) :
  Forall (fun x => List.length (f x) = nrows x) above ->
  List.length (f d) = nrows d ->
  block (list_sum (map nrows above)) (nrows d) (flat_map f (above ++ d :: below)) = f d.
Proof.
  intros Ha Hd. unfold block.
  rewrite flat_map_app. cbn [flat_map].
  rewrite <- (length_flat_map_rows f above Ha), <- Hd.
  rewrite skipn_app, skipn_all, Nat.sub_diag. cbn [skipn app].
  rewrite firstn_app, firstn_all, Nat.sub_diag. cbn [firstn]. apply app_nil_r.
Qed.

Lemma values_at_assembled {K} (label_of : K -> string) (piece : K -> DataFrame -> list cell)
      (keys : list K) (objs : list DataFrame) (label : string) :
  values_at label (assembled label_of piece keys objs) =
    map (fun k => flat_map (piece k) objs)
        (filter (fun k => String.eqb (label_of k) label) keys).
Proof.
  unfold values_at, assembled. rewrite filter_map_swap, map_map. reflexivity.
Qed.

Lemma in_values_at (label : string) (values : list cell) (cs : list column) :
  In values (values_at label cs) <-> In (label, values) cs.
Proof.
  unfold values_at. rewrite in_map_iff. split.
  - intros ([l v] & <- & H). apply filter_In in H as [H E].
    apply String.eqb_eq in E. cbn in *. now subst.
  - intros H. exists (label, values). split; [reflexivity|].
    apply filter_In. split; [assumption|apply String.eqb_refl].
Qed.

Lemma well_formed_values (df : DataFrame) (label : string) (values : list cell) :
  well_formed df -> In values (values_at label (cols df)) -> List.length values = nrows df.
Proof.
  intros Hwf H. apply in_values_at in H.
  unfold well_formed in Hwf. rewrite Forall_forall in Hwf. apply (Hwf _ H).
Qed.

(** ** Combined columns, for any choice of keys *)

Section Assembled.

Variable K : Type.
Variable label_of : K -> string.
Variable piece : K -> DataFrame -> list cell.
Variable keys : list K.
Variable objs : list DataFrame.

(** A table that has the label of a key contributes one of its columns
    under that label; one that has not contributes [NaN] for each of its
    rows; and the keys of a label select each column a table has under
    it, once and in order. *)
Hypothesis piece_present :
  forall k d, In k keys -> In d objs -> In (label_of k) (columns d) ->
              In (piece k d) (values_at (label_of k) (cols d)).
Hypothesis piece_absent :
  forall k d, In k keys -> In d objs -> ~ In (label_of k) (columns d) ->
              piece k d = repeat NaN (nrows d).
Hypothesis pieces_cover :
  forall d label, In d objs -> In label (columns d) ->
    values_at label (cols d) =
      map (fun k => piece k d) (filter (fun k => String.eqb (label_of k) label) keys).

Lemma piece_length (k : K) (d : DataFrame) :
  In k keys -> In d objs -> well_formed d -> List.length (piece k d) = nrows d.
Proof.
  intros Hk Hd Hwf.
  destruct (in_dec string_dec (label_of k) (columns d)) as [Hin|Hout].
  - eapply well_formed_values; [exact Hwf|]. now apply piece_present.
  - rewrite piece_absent by assumption. apply repeat_length.
Qed.

Lemma assembled_well_formed :
  Forall well_formed objs ->
  Forall (fun c : column => List.length (snd c) = list_sum (map nrows objs))
         (assembled label_of piece keys objs).
Proof.
  intros Hwf. unfold assembled. apply Forall_map, Forall_forall. intros k Hk. cbn [snd].
  apply length_flat_map_rows, Forall_forall. intros d Hd.
  apply piece_length; try assumption. rewrite Forall_forall in Hwf. now apply Hwf.
Qed.

Lemma assembled_block_present (above : list DataFrame) (d : DataFrame)
      (below : list DataFrame) (label : string) :
  objs = above ++ d :: below ->
  Forall well_formed objs ->
  In label (columns d) ->
  map (block (list_sum (map nrows above)) (nrows d))
      (values_at label (assembled label_of piece keys objs))
  = values_at label (cols d).
Proof.
  intros Hs Hwf Hin.
  assert (Hd : In d objs) by (rewrite Hs; apply in_app_iff; right; now left).
  rewrite values_at_assembled, map_map, (pieces_cover d label Hd Hin).
  apply map_ext_in. intros k Hk. apply filter_In in Hk as [Hk _].
  rewrite Forall_forall in Hwf.
  rewrite Hs. apply block_flat_map.
  - apply Forall_forall. intros x Hx.
    assert (Hxo : In x objs) by (rewrite Hs; apply in_app_iff; now left).
    apply piece_length; auto.
  - apply piece_length; auto.
Qed.

Lemma assembled_block_absent (above : list DataFrame) (d : DataFrame)
      (below : list DataFrame) (label : string) :
  objs = above ++ d :: below ->
  Forall well_formed objs ->
  ~ In label (columns d) ->
  Forall (fun values =>
            block (list_sum (map nrows above)) (nrows d) values = repeat NaN (nrows d))
         (values_at label (assembled label_of piece keys objs)).
Proof.
  intros Hs Hwf Hout.
  assert (Hd : In d objs) by (rewrite Hs; apply in_app_iff; right; now left).
  rewrite values_at_assembled. apply Forall_map, Forall_forall. intros k Hk.
  apply filter_In in Hk as [Hk E]. apply String.eqb_eq in E.
  rewrite Forall_forall in Hwf.
  rewrite Hs, block_flat_map.
  - apply piece_absent; try assumption. now rewrite E.
  - apply Forall_forall. intros x Hx.
    assert (Hxo : In x objs) by (rewrite Hs; apply in_app_iff; now left).
    apply piece_length; auto.
  - apply piece_length; auto.
Qed.

(** A label that every table has, with a cell in every row and no null,
    has no null in the combined table either. *)
Lemma assembled_full (label : string) :
  (forall d, In d objs ->
             In label (columns d) /\
             Forall (fun values => List.length values = nrows d /\ full values)
                    (values_at label (cols d))) ->
  Forall (fun values => List.length values = list_sum (map nrows objs) /\ full values)
         (values_at label (assembled label_of piece keys objs)).
Proof.
  intros H. rewrite values_at_assembled. apply Forall_map, Forall_forall.
  intros k Hk. apply filter_In in Hk as [Hk E]. apply String.eqb_eq in E.
  assert (Hp : forall d, In d objs ->
                         List.length (piece k d) = nrows d /\ full (piece k d)).
  { intros d Hd. destruct (H d Hd) as [Hin Hall]. rewrite Forall_forall in Hall.
    apply Hall. rewrite <- E. apply piece_present; try assumption. now rewrite E. }
  split.
  - apply length_flat_map_rows, Forall_forall. intros d Hd. now apply Hp.
  - unfold full. apply Forall_forall. intros c Hc.
    apply in_flat_map in Hc as (d & Hd & Hc).
    destruct (Hp d Hd) as [_ Hfull]. unfold full in Hfull.
    rewrite Forall_forall in Hfull. now apply Hfull.
Qed.

End Assembled.

(** ** Labels of the combined axis *)

Lemma labels_equal_iff (a b : list string) : labels_equal a b = true <-> a = b.
Proof.
  unfold labels_equal. destruct (list_eq_dec string_dec a b); split; congruence.
Qed.

Lemma is_unique_iff (labels : list string) : is_unique labels = true <-> NoDup labels.
Proof.
  induction labels as [|l rest IH]; cbn.
  - split; [constructor|reflexivity].
  - rewrite andb_true_iff, negb_true_iff, IH. split.
    + intros [Hn Hnd]. constructor; [|assumption].
      intros Hin. apply label_in_iff in Hin. congruence.
    + intros H. inversion H as [|? ? Hn Hnd]; subst. split; [|assumption].
      destruct (label_in l rest) eqn:E; [|reflexivity].
      apply label_in_iff in E. contradiction.
Qed.

Lemma in_unique (x : string) (labels : list string) : In x (unique labels) <-> In x labels.
Proof.
  induction labels as [|l rest IH]; cbn; [reflexivity|].
  rewrite filter_In, IH, negb_true_iff. split.
  - intros [H|[H _]]; [now left|now right].
  - intros [H|H]; [now left|].
    destruct (string_dec l x) as [E|E]; [now left|].
    right. split; [assumption|]. apply String.eqb_neq. congruence.
Qed.

Lemma unique_nodup (labels : list string) : NoDup (unique labels).
Proof.
  induction labels as [|l rest IH]; cbn; constructor.
  - rewrite filter_In, negb_true_iff. intros [_ H].
    now rewrite String.eqb_refl in H.
  - now apply NoDup_filter.
Qed.

(** ** Tables stacked by position *)

Lemma fst_nth_cols (d : DataFrame) (j : nat) :
  fst (nth j (cols d) ("", [])) = nth j (columns d) "".
Proof. unfold columns. symmetry. exact (map_nth fst (cols d) ("", []) j). Qed.

Lemma stacked_closed_form (first : DataFrame) (others : list DataFrame) :
  Forall (fun d => columns d = columns first) others ->
  fold_left stack_under others (cols first) =
    assembled (nth_label (columns first)) nth_values (seq 0 (ncols first)) (first :: others).
Proof.
  induction others as [|d others IH] using rev_ind; intros H.
  - cbn [fold_left]. unfold assembled, ncols.
    rewrite <- (@map_nth_seq column ("", []) (cols first)) at 1.
    apply map_ext. intros j. cbn [flat_map]. rewrite app_nil_r.
    unfold nth_label, nth_values. rewrite <- fst_nth_cols.
    apply surjective_pairing.
  - apply Forall_app in H as [Ho Hd]. inversion Hd as [|? ? Hlab _]; subst.
    rewrite fold_left_app. cbn [fold_left]. rewrite (IH Ho).
    assert (Hlen : List.length (cols d) = ncols first).
    { unfold ncols. apply (f_equal (@List.length _)) in Hlab.
      unfold columns in Hlab. now rewrite !length_map in Hlab. }
    unfold stack_under, assembled.
    rewrite <- (@map_nth_seq column ("", []) (cols d)) at 1. rewrite Hlen.
    rewrite combine_map_same, map_map.
    apply map_ext. intros j. cbn [fst snd].
    f_equal. change (first :: others ++ [d]) with ((first :: others) ++ [d]).
    rewrite flat_map_app. cbn [flat_map]. now rewrite app_nil_r.
Qed.

Section ByPosition.

Variable labels : list string.
Variable objs : list DataFrame.
Hypothesis same_labels : forall d, In d objs -> columns d = labels.

Lemma ncols_same (d : DataFrame) : In d objs -> List.length (cols d) = List.length labels.
Proof.
  intros H. rewrite <- (same_labels d H). unfold columns. now rewrite length_map.
Qed.

Lemma position_present (j : nat) (d : DataFrame) :
  In j (seq 0 (List.length labels)) -> In d objs ->
  In (nth_label labels j) (columns d) ->
  In (nth_values j d) (values_at (nth_label labels j) (cols d)).
Proof.
  intros Hj Hd _. apply in_seq in Hj. apply in_values_at.
  unfold nth_label, nth_values. rewrite <- (same_labels d Hd), <- fst_nth_cols.
  rewrite <- surjective_pairing. apply nth_In. rewrite (ncols_same d Hd). lia.
Qed.

Lemma position_absent (j : nat) (d : DataFrame) :
  In j (seq 0 (List.length labels)) -> In d objs ->
  ~ In (nth_label labels j) (columns d) ->
  nth_values j d = repeat NaN (nrows d).
Proof.
  intros Hj Hd Hout. apply in_seq in Hj. elim Hout.
  rewrite (same_labels d Hd). apply nth_In. lia.
Qed.

Lemma position_cover (d : DataFrame) (label : string) :
  In d objs -> In label (columns d) ->
  values_at label (cols d) =
    map (fun j => nth_values j d)
        (filter (fun j => String.eqb (nth_label labels j) label) (seq 0 (List.length labels))).
Proof.
  intros Hd _. unfold values_at.
  rewrite <- (@map_nth_seq column ("", []) (cols d)) at 1.
  rewrite filter_map_swap, map_map, (ncols_same d Hd).
  unfold nth_values. f_equal. apply filter_ext. intros j.
  now rewrite fst_nth_cols, (same_labels d Hd).
Qed.

Lemma position_labels : map (nth_label labels) (seq 0 (List.length labels)) = labels.
Proof. apply map_nth_seq. Qed.

End ByPosition.

(** ** Tables reindexed on the union of their labels *)

Lemma take_column_present (label : string) (d : DataFrame) :
  In label (columns d) -> In (take_column label d) (values_at label (cols d)).
Proof.
  intros H. unfold take_column.
  destruct (find (fun c : column => String.eqb (fst c) label) (cols d)) as [c|] eqn:E.
  - apply find_some in E as [Hin Hl]. apply String.eqb_eq in Hl.
    apply in_values_at. rewrite <- Hl, <- surjective_pairing. exact Hin.
  - unfold columns in H. apply in_map_iff in H as (c & Hc & Hin).
    apply (find_none _ _ E) in Hin. rewrite Hc, String.eqb_refl in Hin. discriminate.
Qed.

Lemma take_column_absent (label : string) (d : DataFrame) :
  ~ In label (columns d) -> take_column label d = repeat NaN (nrows d).
Proof.
  intros H. unfold take_column.
  destruct (find (fun c : column => String.eqb (fst c) label) (cols d)) as [c|] eqn:E;
    [|reflexivity].
  apply find_some in E as [Hin Hl]. apply String.eqb_eq in Hl.
  elim H. rewrite <- Hl. unfold columns. now apply in_map.
Qed.

Lemma values_at_nodup (label : string) (d : DataFrame) :
  NoDup (columns d) -> In label (columns d) ->
  values_at label (cols d) = [take_column label d].
Proof.
  unfold columns, values_at, take_column.
  induction (cols d) as [|c cs IH]; cbn [map filter find]; intros Hnd Hin; [destruct Hin|].
  inversion Hnd as [|? ? Hc Hcs]; subst.
  destruct (String.eqb (fst c) label) eqn:E.
  - apply String.eqb_eq in E. cbn [map]. f_equal.
    rewrite filter_none; [reflexivity|].
    intros x Hx. apply String.eqb_neq. intros Hl. apply Hc. rewrite E, <- Hl.
    now apply in_map.
  - apply String.eqb_neq in E. destruct Hin as [Hin|Hin]; [contradiction|].
    now apply IH.
Qed.

Lemma union_cover (objs : list DataFrame) (d : DataFrame) (label : string) :
  In d objs -> NoDup (columns d) -> In label (columns d) ->
  values_at label (cols d) =
    map (fun k => take_column k d)
        (filter (fun k => String.eqb k label) (unique (flat_map columns objs))).
Proof.
  intros Hd Hnd Hin.
  rewrite filter_eq_nodup.
  - now apply values_at_nodup.
  - apply unique_nodup.
  - apply in_unique, in_flat_map. now exists d.
Qed.

(** ** Concatenation *)

Lemma columns_assembled {K} (label_of : K -> string) (piece : K -> DataFrame -> list cell)
      (keys : list K) (objs : list DataFrame) (idx : list cell) :
  columns (mkDataFrame idx (assembled label_of piece keys objs)) = map label_of keys.
Proof. unfold columns, assembled. cbn [cols]. now rewrite map_map. Qed.

Lemma length_RangeIndex (n : nat) : List.length (RangeIndex n) = n.
Proof. unfold RangeIndex. now rewrite length_map, length_seq. Qed.

Lemma nrows_range (n : nat) (cs : list column) :
  nrows (mkDataFrame (RangeIndex n) cs) = n.
Proof. apply length_RangeIndex. Qed.

Lemma same_labels_forallb (first : DataFrame) (others : list DataFrame) :
  forallb (fun df => labels_equal (columns df) (columns first)) others = true <->
  (forall d, In d (first :: others) -> columns d = columns first).
Proof.
  rewrite forallb_forall. split.
  - intros H d [<-|Hd]; [reflexivity|]. now apply labels_equal_iff, H.
  - intros H d Hd. apply labels_equal_iff, H. now right.
Qed.

Lemma unique_labels_forallb (objs : list DataFrame) :
  forallb (fun df => is_unique (columns df)) objs = true <->
  (forall d, In d objs -> NoDup (columns d)).
Proof.
  rewrite forallb_forall. split; intros H d Hd; now apply is_unique_iff, H.
Qed.

(** The three courses of [pd_concat] on a list that is not empty. *)
Lemma pd_concat_same (first : DataFrame) (others : list DataFrame) :
  (forall d, In d (first :: others) -> columns d = columns first) ->
  pd_concat (first :: others) =
    Ok (mkDataFrame (RangeIndex (list_sum (map nrows (first :: others))))
          (assembled (nth_label (columns first)) nth_values
                     (seq 0 (List.length (columns first))) (first :: others))).
Proof.
  intros H. unfold pd_concat.
  rewrite (proj2 (same_labels_forallb first others) H).
  rewrite stacked_closed_form.
  - unfold ncols, columns. now rewrite length_map.
  - apply Forall_forall. intros d Hd. apply H. now right.
Qed.

Lemma pd_concat_union (first : DataFrame) (others : list DataFrame) :
  ~ (forall d, In d (first :: others) -> columns d = columns first) ->
  (forall d, In d (first :: others) -> NoDup (columns d)) ->
  pd_concat (first :: others) =
    Ok (mkDataFrame (RangeIndex (list_sum (map nrows (first :: others))))
          (assembled (fun label => label) take_column
                     (unique (flat_map columns (first :: others))) (first :: others))).
Proof.
  intros Hs Hu. unfold pd_concat.
  destruct (forallb (fun df => labels_equal (columns df) (columns first)) others) eqn:E.
  - elim Hs. exact (proj1 (same_labels_forallb _ _) E).
  - now rewrite (proj2 (unique_labels_forallb (first :: others)) Hu).
Qed.

Lemma pd_concat_refused (first : DataFrame) (others : list DataFrame) :
  ~ (forall d, In d (first :: others) -> columns d = columns first) ->
  ~ (forall d, In d (first :: others) -> NoDup (columns d)) ->
  pd_concat (first :: others) = Raise CONCAT_REFUSED.
Proof.
  intros Hs Hu. unfold pd_concat.
  destruct (forallb (fun df => labels_equal (columns df) (columns first)) others) eqn:E.
  - elim Hs. exact (proj1 (same_labels_forallb _ _) E).
  - destruct (forallb (fun df => is_unique (columns df)) (first :: others)) eqn:U;
      [|reflexivity].
    elim Hu. exact (proj1 (unique_labels_forallb _) U).
Qed.

(** What a combined table is, whichever way it was built. *)
Lemma pd_concat_result (objs : list DataFrame) (combined : DataFrame) :
  pd_concat objs = Ok combined ->
  index combined = RangeIndex (list_sum (map nrows objs)) /\
  (forall label,
      In label (columns combined) <-> exists d, In d objs /\ In label (columns d)) /\
  (Forall well_formed objs ->
   well_formed combined /\
   forall above d below label,
     objs = above ++ d :: below ->
     (In label (columns d) ->
      map (block (list_sum (map nrows above)) (nrows d))
          (values_at label (cols combined)) = values_at label (cols d)) /\
     (~ In label (columns d) ->
      Forall (fun values =>
                block (list_sum (map nrows above)) (nrows d) values
                = repeat NaN (nrows d))
             (values_at label (cols combined)))) /\
  (forall label,
      (forall d, In d objs ->
                 In label (columns d) /\
                 Forall (fun values => List.length values = nrows d /\ full values)
                        (values_at label (cols d))) ->
      Forall (fun values => List.length values = nrows combined /\ full values)
             (values_at label (cols combined))).
Proof.
  destruct objs as [|first others]; [discriminate|]. intros H.
  destruct (forallb (fun df => labels_equal (columns df) (columns first)) others) eqn:E.
  - pose proof (proj1 (same_labels_forallb _ _) E) as E'. clear E. rename E' into E.
    rewrite (pd_concat_same first others E) in H. injection H as <-.
    pose proof (position_present (columns first) (first :: others) E) as Hp.
    pose proof (position_absent (columns first) (first :: others) E) as Ha.
    pose proof (position_cover (columns first) (first :: others) E) as Hc.
    split; [reflexivity|]. split; [|split].
    + intros label. rewrite columns_assembled, position_labels. split.
      * intros Hin. exists first. split; [now left|assumption].
      * intros (d & Hd & Hin). now rewrite <- (E d Hd).
    + intros Hwf. split.
      * unfold well_formed. rewrite nrows_range. cbn [cols].
        change (nrows first + list_sum (map nrows others))
          with (list_sum (map nrows (first :: others))).
        now apply assembled_well_formed.
      * intros above d below label Hs. cbn [cols]. split; intros Hin.
        -- now apply assembled_block_present with (below := below).
        -- now apply assembled_block_absent with (below := below).
    + intros label Hall. rewrite nrows_range. cbn [cols].
      change (nrows first + list_sum (map nrows others))
        with (list_sum (map nrows (first :: others))).
      now apply assembled_full.
  - destruct (forallb (fun df => is_unique (columns df)) (first :: others)) eqn:U.
    + pose proof (proj1 (unique_labels_forallb _) U) as U'. clear U. rename U' into U.
      assert (Hs : ~ (forall d, In d (first :: others) -> columns d = columns first)).
      { intros Hs. rewrite (proj2 (same_labels_forallb _ _) Hs) in E. discriminate. }
      rewrite (pd_concat_union first others Hs U) in H. injection H as <-.
      set (objs := first :: others) in *.
      assert (Hp : forall k d, In k (unique (flat_map columns objs)) -> In d objs ->
                               In k (columns d) -> In (take_column k d) (values_at k (cols d))).
      { intros k d _ _. apply take_column_present. }
      assert (Ha : forall k d, In k (unique (flat_map columns objs)) -> In d objs ->
                               ~ In k (columns d) -> take_column k d = repeat NaN (nrows d)).
      { intros k d _ _. apply take_column_absent. }
      assert (Hc : forall d label, In d objs -> In label (columns d) ->
                     values_at label (cols d) =
                       map (fun k => take_column k d)
                           (filter (fun k => String.eqb k label)
                                   (unique (flat_map columns objs)))).
      { intros d label Hd Hin. apply union_cover; auto. }
      split; [reflexivity|]. split; [|split].
      * intros label. rewrite columns_assembled, map_id. split.
        -- intros Hin.
           exact (proj1 (in_flat_map columns objs label) (proj1 (in_unique _ _) Hin)).
        -- intros Hex.
           exact (proj2 (in_unique _ _) (proj2 (in_flat_map columns objs label) Hex)).
      * intros Hwf. split.
        -- unfold well_formed. rewrite nrows_range. cbn [cols].
           change (nrows first + list_sum (map nrows others))
             with (list_sum (map nrows objs)).
           change (columns first ++ flat_map columns others)
             with (flat_map columns objs).
           now apply assembled_well_formed.
        -- intros above d below label Hsplit. cbn [cols].
           change (columns first ++ flat_map columns others)
             with (flat_map columns objs).
           split; intros Hin.
           ++ now apply assembled_block_present with (below := below).
           ++ now apply assembled_block_absent with (below := below).
      * intros label Hall. rewrite nrows_range. cbn [cols].
        change (nrows first + list_sum (map nrows others))
          with (list_sum (map nrows objs)).
        change (columns first ++ flat_map columns others)
          with (flat_map columns objs).
        now apply assembled_full.
    + unfold pd_concat in H. rewrite E, U in H. discriminate.
Qed.

(** ** Dataset assembler: what is loaded *)

Lemma Path_eq_dec (p q : Path) : {p = q} + {p <> q}.
Proof. decide equality; apply string_dec. Qed.

Lemma df_empty_empty : df_empty empty_DataFrame = true.
Proof. reflexivity. Qed.

(** A table in [dfs] comes from a file that parsed, with at least one row. *)
Lemma loaded_tagged (w : World) (files : list Path) (d : DataFrame) :
  In d (loaded w files) ->
  exists file_path encoding raw,
    In file_path files /\ pd_read_csv w file_path encoding = Ok raw /\
    d = tagged file_path raw /\ nrows raw <> 0.
Proof.
  unfold loaded. intros H. apply filter_In in H as [H Hne].
  apply in_map_iff in H as (p & <- & Hp).
  destruct (decoded_cases w p)
    as [(before & enc & after & raw & _ & _ & Hok & Hd & _)|(_ & Hd & _)].
  - exists p, enc, raw. repeat split; try assumption.
    rewrite Hd, df_empty_tagged in Hne. apply negb_true_iff in Hne.
    now apply Nat.eqb_neq.
  - rewrite Hd in Hne. discriminate.
Qed.

Lemma full_repeat_Str (s : string) (n : nat) : full (repeat (Str s) n).
Proof. unfold full. apply Forall_forall. intros c Hc. now apply repeat_spec in Hc as ->. Qed.

Lemma tagged_source_full (file_path : Path) (raw : DataFrame) (label : string) :
  label = "source_file" \/ label = "source_month" ->
  In label (columns (tagged file_path raw)) /\
  Forall (fun values => List.length values = nrows (tagged file_path raw) /\ full values)
         (values_at label (cols (tagged file_path raw))).
Proof.
  rewrite nrows_tagged. intros [->| ->].
  - destruct (tagged_source_file file_path raw) as [H1 H2]. split; [assumption|].
    eapply Forall_impl; [|exact H2]. intros v ->.
    split; [apply repeat_length|apply full_repeat_Str].
  - destruct (tagged_source_month file_path raw) as [H1 H2]. split; [assumption|].
    eapply Forall_impl; [|exact H2]. intros v ->.
    split; [apply repeat_length|apply full_repeat_Str].
Qed.



Lemma ingest_all_files_ok_inv (w : World) (t t' : Trace) (combined : DataFrame) :
  ingest_all_files w t = (Ok combined, t') ->
  raw_data_exists w = true /\ rglob_csv w <> [] /\
  loaded w (rglob_csv w) <> [] /\
  pd_concat (loaded w (rglob_csv w)) = Ok combined.
Proof.
  intros H.
  destruct (raw_data_exists w) eqn:He.
  2:{ unfold ingest_all_files in H. rewrite He in H. discriminate. }
  destruct (rglob_csv w) as [|f fs] eqn:Ef.
  { unfold ingest_all_files in H. rewrite He, Ef in H. discriminate. }
  assert (Hf : rglob_csv w <> []) by (rewrite Ef; discriminate).
  rewrite (ingest_all_files_run w t He Hf) in H. rewrite Ef in *.
  destruct (loaded w (f :: fs)) as [|d ds]; [discriminate|].
  destruct (pd_concat (d :: ds)) as [c|e]; [|discriminate].
  injection H as <- _. repeat split; discriminate.
Qed.

Lemma rglob_csv_none (w : World) :
  (forall p, In p (raw_data_tree w) -> PyStr.endswith ".csv" (name p) = false) ->
  rglob_csv w = [].
Proof. intros H. unfold rglob_csv. now apply filter_none. Qed.

Lemma endswith_spec (suffix s : string) :
  PyStr.endswith suffix s = true <-> exists before, s = (before ++ suffix)%string.
Proof.
  induction s as [|c s IH]; cbn [PyStr.endswith].
  - rewrite orb_false_r, String.eqb_eq. split.
    + intros <-. now exists "".
    + intros [[|b before] H]; [exact H|discriminate H].
  - rewrite orb_true_iff, String.eqb_eq, IH. split.
    + intros [<-|[before ->]]; [now exists ""|now exists (String c before)].
    + intros [[|b before] H]; [now left|].
      right. injection H as -> ->. now exists before.
Qed.

Lemma same_labels_first (first : DataFrame) (others : list DataFrame) :
  (forall d d', In d (first :: others) -> In d' (first :: others) -> columns d = columns d')
  <-> (forall d, In d (first :: others) -> columns d = columns first).
Proof.
  split.
  - intros H d Hd. apply H; [assumption|now left].
  - intros H d d' Hd Hd'. now rewrite (H d Hd), (H d' Hd').
Qed.

Lemma pd_concat_accepts (objs : list DataFrame) :
  objs <> [] ->
  (forall d d', In d objs -> In d' objs -> columns d = columns d')
  \/ (forall d, In d objs -> NoDup (columns d)) ->
  exists combined, pd_concat objs = Ok combined.
Proof.
  destruct objs as [|first others]; [contradiction|]. intros _ H.
  destruct (forallb (fun df => labels_equal (columns df) (columns first)) others) eqn:E.
  - pose proof (proj1 (same_labels_forallb _ _) E) as Hs.
    rewrite (pd_concat_same first others Hs). eauto.
  - assert (Hs : ~ (forall d, In d (first :: others) -> columns d = columns first)).
    { intros Hs. rewrite (proj2 (same_labels_forallb _ _) Hs) in E. discriminate. }
    destruct H as [H|H].
    + elim Hs. now apply same_labels_first.
    + rewrite (pd_concat_union first others Hs H). eauto.
Qed.

(** ** Dataset assembler *)

(** X22. The outcomes of [ingest_all_files], case by case.  It raises
    [FileNotFoundError] when the directory does not exist, and when it
    exists but no path below it has a name ending in [.csv];
    it raises [RuntimeError], which no handler for [FileNotFoundError]
    catches and conversely, when files are found and the table of each
    is empty.  When some table is not empty it
    returns a table if the tables kept all carry the same labels or
    none of them repeats a label, and otherwise lets the
    [InvalidIndexError] of [pd.concat] through. *)
Theorem ingest_all_files_outcomes (w : World) (t : Trace) :
  let files := rglob_csv w in
  let dfs := loaded w files in
  (raw_data_exists w = false ->
   ingest_all_files w t =
     (Raise (FileNotFoundError "data/raw directory does not exist."), t)) /\
  (raw_data_exists w = true ->
   (forall p, In p (raw_data_tree w) -> PyStr.endswith ".csv" (name p) = false) ->
   ingest_all_files w t =
     (Raise (FileNotFoundError "No CSV files found in data/raw."), t)) /\
  (raw_data_exists w = true -> files <> [] ->
   (forall p, In p files -> df_empty (decoded w p) = true) ->
   fst (ingest_all_files w t) =
     Raise (RuntimeError
              "No datasets were loaded. Check file encodings or file integrity.")) /\
  (forall msg msg',
      RuntimeError msg <> FileNotFoundError msg' /\
      isinstance (RuntimeError msg) "FileNotFoundError" = false /\
      isinstance (FileNotFoundError msg') "RuntimeError" = false) /\
  (raw_data_exists w = true -> files <> [] ->
   (exists p, In p files /\ df_empty (decoded w p) = false) ->
   ((forall d d', In d dfs -> In d' dfs -> columns d = columns d')
    \/ (forall d, In d dfs -> NoDup (columns d)) ->
    exists combined, fst (ingest_all_files w t) = Ok combined) /\
   (~ (forall d d', In d dfs -> In d' dfs -> columns d = columns d') ->
    ~ (forall d, In d dfs -> NoDup (columns d)) ->
    fst (ingest_all_files w t) =
      Raise (InvalidIndexError
               "Reindexing only valid with uniquely valued Index objects"))).
Proof.
  intros files dfs. split; [|split; [|split; [|split]]].
  - intros He. unfold ingest_all_files. now rewrite He.
  - intros He Hnone. unfold ingest_all_files.
    now rewrite He, (rglob_csv_none w Hnone).
  - intros He Hf Hall. rewrite (ingest_all_files_run w t He Hf).
    replace (loaded w (rglob_csv w)) with (@nil DataFrame); [reflexivity|].
    symmetry. unfold loaded. apply filter_none. intros d Hd.
    apply in_map_iff in Hd as (p & <- & Hp). now rewrite (Hall p Hp).
  - intros msg msg'. repeat split. discriminate.
  - intros He Hf (p & Hp & Hne).
    assert (Hd : In (decoded w p) dfs).
    { unfold dfs, loaded. apply filter_In. split; [now apply in_map|now rewrite Hne]. }
    rewrite (ingest_all_files_run w t He Hf). fold files. fold dfs.
    destruct dfs as [|first others] eqn:Edfs; [destruct Hd|]. split.
    + intros Hacc. destruct (pd_concat_accepts (first :: others)) as [c Hc];
        [discriminate|exact Hacc|].
      rewrite Hc. now exists c.
    + intros Hs Hu. rewrite pd_concat_refused; [reflexivity| |exact Hu].
      intros H. apply Hs. now apply same_labels_first.
Qed.

Lemma ingest_all_files_outcomes_witness :
  (exists combined, fst (ingest_all_files two_files []) = Ok combined) /\
  fst (ingest_all_files garbage_files []) =
    Raise (RuntimeError
             "No datasets were loaded. Check file encodings or file integrity.").
Proof.
  split.
  - destruct (ingest_all_files_outcomes two_files []) as (_ & _ & _ & _ & H).
    destruct H as [H _].
    + reflexivity.
    + discriminate.
    + exists file_a. split; [now left|reflexivity].
    + apply H. right. intros d Hd. apply is_unique_iff.
      vm_compute in Hd. destruct Hd as [<-|[<-|[]]]; reflexivity.
  - destruct (ingest_all_files_outcomes garbage_files []) as (_ & _ & H & _).
    apply H.
    + reflexivity.
    + discriminate.
    + intros p Hp. vm_compute in Hp. destruct Hp as [<-|[<-|[]]]; reflexivity.
Defined.

(** C2. The directory exists, two files are found and the table of each
    has rows, so [ingest_all_files] should return; it raises instead.
    The labels [City] and [city ] of [file_a] are both rewritten to
    [city], the labels of [file_b] differ, and the [InvalidIndexError]
    of [pd.concat] reaches the caller. *)
Lemma ingest_all_files_may_refuse :
  raw_data_exists clash_files = true /\
  rglob_csv clash_files = [file_a; file_b] /\
  df_empty (decoded clash_files file_a) = false /\
  df_empty (decoded clash_files file_b) = false /\
  fst (ingest_all_files clash_files []) =
    Raise (InvalidIndexError "Reindexing only valid with uniquely valued Index objects").
Proof. repeat split. Qed.



(** C3. Two files are discovered and both decode to tables with rows
    (N = M = 2), so a combined table with the rows of both should come
    back; none does, the run ends in the [InvalidIndexError] of
    [pd.concat]. *)
Lemma combined_dataset_may_not_exist :
  List.length (rglob_csv clash_files) = 2 /\
  List.length (loaded clash_files (rglob_csv clash_files)) = 2 /\
  list_sum (map nrows (loaded clash_files (rglob_csv clash_files))) = 2 /\
  (forall combined t', ingest_all_files clash_files [] <> (Ok combined, t')) /\
  exists msg, fst (ingest_all_files clash_files []) = Raise (InvalidIndexError msg).
Proof.
  split; [reflexivity|]. split; [reflexivity|]. split; [reflexivity|]. split.
  - intros combined t' H. vm_compute in H. discriminate.
  - eexists. reflexivity.
Qed.

(** C7. In a table returned by [ingest_all_files] the labels
    [source_file] and [source_month] are present, and every column under
    either has one cell per row, none of them null. *)
Theorem combined_rows_have_source (w : World) (t t' : Trace) (combined : DataFrame) :
  ingest_all_files w t = (Ok combined, t') ->
  In "source_file" (columns combined) /\
  Forall (fun values =>
            List.length values = nrows combined /\
            Forall (fun c => isna c = false) values)
         (values_at "source_file" (cols combined)) /\
  In "source_month" (columns combined) /\
  Forall (fun values =>
            List.length values = nrows combined /\
            Forall (fun c => isna c = false) values)
         (values_at "source_month" (cols combined)).
Proof.
  intros H. apply ingest_all_files_ok_inv in H as (_ & _ & Hne & Hc).
  destruct (pd_concat_result _ _ Hc) as (_ & Hlabels & _ & Hfull).
  assert (Hsrc : forall label, label = "source_file" \/ label = "source_month" ->
                   forall d, In d (loaded w (rglob_csv w)) ->
                     In label (columns d) /\
                     Forall (fun values => List.length values = nrows d /\ full values)
                            (values_at label (cols d))).
  { intros label Hl d Hd.
    apply loaded_tagged in Hd as (p & enc & raw & _ & _ & -> & _).
    now apply tagged_source_full. }
  assert (Hin : forall label, label = "source_file" \/ label = "source_month" ->
                              In label (columns combined)).
  { intros label Hl. apply Hlabels.
    destruct (loaded w (rglob_csv w)) as [|d ds] eqn:E; [contradiction|].
    exists d. split; [now left|]. apply (Hsrc label Hl d). now left. }
  split; [apply Hin; now left|].
  split; [apply Hfull, Hsrc; now left|].
  split; [apply Hin; now right|].
  apply Hfull, Hsrc; now right.
Qed.

Lemma combined_rows_have_source_witness :
  exists combined,
    fst (ingest_all_files two_files []) = Ok combined /\
    values_at "source_month" (cols combined)
      = [[Str "2023-01"; Str "2023-01"; Str "2023-02"]] /\
    Forall (fun values =>
              List.length values = nrows combined /\
              Forall (fun c => isna c = false) values)
           (values_at "source_file" (cols combined)).
Proof.
  destruct (ingest_all_files two_files []) as [[combined|e] t'] eqn:E;
    [|vm_compute in E; discriminate E].
  exists combined. split; [reflexivity|].
  destruct (combined_rows_have_source two_files [] t' combined E) as (_ & H & _).
  split; [|exact H].
  vm_compute in E. injection E as <- _. reflexivity.
Defined.

(** ** Files without data rows *)

Lemma existsb_none {A} (f : A -> bool) (l : list A) :
  (forall x, In x l -> f x = false) -> existsb f l = false.
Proof.
  induction l as [|a l IH]; intros H; [reflexivity|].
  cbn. rewrite (H a) by now left. apply IH. intros x Hx. apply H. now right.
Qed.

Lemma try_encodings_ext (w w' : World) (file_path : Path) :
  (forall enc, pd_read_csv w' file_path enc = pd_read_csv w file_path enc) ->
  forall encodings t,
    try_encodings w' file_path encodings t = try_encodings w file_path encodings t.
Proof.
  intros H. induction encodings as [|enc rest IH]; intros t; [reflexivity|].
  destruct (pd_read_csv w file_path enc) as [raw|e] eqn:E.
  - rewrite (try_encodings_step_ok w _ _ rest _ t E).
    rewrite <- H in E. now rewrite (try_encodings_step_ok w' _ _ rest _ t E).
  - assert (Hf : fails w file_path enc) by now exists e.
    assert (Hf' : fails w' file_path enc) by (exists e; now rewrite H).
    rewrite (try_encodings_step_raise w _ _ rest t Hf).
    rewrite (try_encodings_step_raise w' _ _ rest t Hf'). apply IH.
Qed.

Lemma decoded_ext (w w' : World) (file_path : Path) :
  (forall enc, pd_read_csv w' file_path enc = pd_read_csv w file_path enc) ->
  decoded w' file_path = decoded w file_path.
Proof.
  intros H. unfold decoded, read_csv_file. now rewrite (try_encodings_ext w w' _ H).
Qed.

Lemma decoded_first_success (w : World) (file_path : Path) (before : list string)
      (encoding : string) (after : list string) (raw : DataFrame) :
  ENCODINGS = before ++ encoding :: after ->
  Forall (fails w file_path) before ->
  pd_read_csv w file_path encoding = Ok raw ->
  decoded w file_path = tagged file_path raw /\
  decode_events w file_path =
    map (ReadCsv file_path) before ++ loaded_events file_path encoding raw.
Proof.
  intros Hs Hb Hok. unfold decoded, decode_events, read_csv_file.
  rewrite Hs, (try_encodings_first_success w _ _ _ _ _ _ Hb Hok). now split.
Qed.

Lemma decoded_all_fail (w : World) (file_path : Path) :
  Forall (fails w file_path) ENCODINGS ->
  decoded w file_path = empty_DataFrame /\
  decode_events w file_path = failure_events file_path ENCODINGS.
Proof.
  intros H. unfold decoded, decode_events, read_csv_file.
  rewrite (try_encodings_all_fail w _ _ _ H). now split.
Qed.

Lemma loaded_events_quiet (file_path : Path) (before : list string)
      (encoding : string) (raw : DataFrame) :
  existsb is_error_log
          (map (ReadCsv file_path) before ++ loaded_events file_path encoding raw) = false.
Proof.
  apply existsb_none. intros e He.
  apply in_app_iff in He as [He|He].
  - apply in_map_iff in He as (x & <- & _). reflexivity.
  - unfold loaded_events in He. apply in_app_iff in He as [He|He].
    + destruct He as [<-|[<-|[]]]; reflexivity.
    + apply in_app_iff in He as [He|He].
      * unfold normalize_warnings in He. apply in_map_iff in He as (x & <- & _). reflexivity.
      * unfold month_warnings in He.
        destruct (find is_month_part _); [destruct He|].
        destruct He as [<-|[]]. reflexivity.
Qed.

Lemma failure_events_loud (file_path : Path) (encodings : list string) :
  existsb is_error_log (failure_events file_path encodings) = true.
Proof.
  unfold failure_events. rewrite existsb_app. cbn. apply orb_true_r.
Qed.

(** C9. A file that parses, first under some candidate, to a table
    without rows gives an empty table and no error record.  Make that
    one file unreadable instead, where an error record is logged, and
    the tables kept and the outcome of [ingest_all_files] are the same.
    When files are found and each parses to a table without rows,
    [ingest_all_files] raises [RuntimeError] and the run has logged no
    error record. *)
Theorem zero_row_file_is_dropped (w w' : World) (file_path : Path)
        (before : list string) (encoding : string) (after : list string)
        (raw : DataFrame) (t : Trace) :
  ENCODINGS = before ++ encoding :: after ->
  Forall (fails w file_path) before ->
  pd_read_csv w file_path encoding = Ok raw ->
  nrows raw = 0 ->
  raw_data_exists w' = raw_data_exists w ->
  raw_data_tree w' = raw_data_tree w ->
  Forall (fails w' file_path) ENCODINGS ->
  (forall p enc, In p (rglob_csv w) -> p <> file_path ->
                 pd_read_csv w' p enc = pd_read_csv w p enc) ->
  df_empty (decoded w file_path) = true /\
  existsb is_error_log (decode_events w file_path) = false /\
  existsb is_error_log (decode_events w' file_path) = true /\
  loaded w (rglob_csv w) = loaded w' (rglob_csv w') /\
  fst (ingest_all_files w t) = fst (ingest_all_files w' t) /\
  (raw_data_exists w = true -> rglob_csv w <> [] ->
   (forall p, In p (rglob_csv w) ->
      exists b e a r,
        ENCODINGS = b ++ e :: a /\ Forall (fails w p) b /\
        pd_read_csv w p e = Ok r /\ nrows r = 0) ->
   exists added,
     ingest_all_files w t =
       (Raise (RuntimeError
                 "No datasets were loaded. Check file encodings or file integrity."),
        t ++ added) /\
     existsb is_error_log added = false).
Proof.
  intros Hs Hb Hok Hz Hex Htree Hfail Hsame.
  destruct (decoded_first_success w file_path before encoding after raw Hs Hb Hok)
    as [Hd Hev].
  destruct (decoded_all_fail w' file_path Hfail) as [Hd' Hev'].
  assert (Hfiles : rglob_csv w' = rglob_csv w) by (unfold rglob_csv; now rewrite Htree).
  assert (Hempty : df_empty (decoded w file_path) = true).
  { now rewrite Hd, df_empty_tagged, Hz. }
  assert (Hloaded : loaded w (rglob_csv w) = loaded w' (rglob_csv w')).
  { rewrite Hfiles.
    assert (Hgen : forall files, (forall p, In p files -> In p (rglob_csv w)) ->
                                 loaded w files = loaded w' files).
    { unfold loaded. induction files as [|p files IH]; intros Hin; [reflexivity|].
      cbn [map filter].
      rewrite IH by (intros q Hq; apply Hin; now right).
      destruct (Path_eq_dec p file_path) as [->|Hne].
      - now rewrite Hempty, Hd', df_empty_empty.
      - rewrite (decoded_ext w w' p); [reflexivity|].
        intros enc. apply Hsame; [apply Hin; now left|assumption]. }
    apply Hgen. auto. }
  split; [exact Hempty|].
  split; [rewrite Hev; apply loaded_events_quiet|].
  split; [rewrite Hev'; apply failure_events_loud|].
  split; [exact Hloaded|]. split.
  - destruct (raw_data_exists w) eqn:He.
    + destruct (list_eq_dec Path_eq_dec (rglob_csv w) []) as [Ef|Hf].
      * unfold ingest_all_files. now rewrite Hex, He, Hfiles, Ef.
      * assert (Hf' : rglob_csv w' <> []) by now rewrite Hfiles.
        rewrite (ingest_all_files_run w t He Hf).
        rewrite (ingest_all_files_run w' t Hex Hf').
        rewrite <- Hloaded.
        destruct (loaded w (rglob_csv w)) as [|d ds]; [reflexivity|].
        destruct (pd_concat (d :: ds)); reflexivity.
    + unfold ingest_all_files. now rewrite Hex, He.
  - intros He Hf Hall. rewrite (ingest_all_files_run w t He Hf).
    replace (loaded w (rglob_csv w)) with (@nil DataFrame).
    + eexists. split; [reflexivity|].
      rewrite existsb_app. cbn [existsb is_error_log orb].
      apply existsb_none. intros e Hin. apply in_flat_map in Hin as (p & Hp & Hin).
      destruct (Hall p Hp) as (b & e' & a & r & Hs' & Hb' & Hok' & _).
      destruct (decoded_first_success w p b e' a r Hs' Hb' Hok') as [_ Hev''].
      pose proof (loaded_events_quiet p b e' r) as Hq. rewrite <- Hev'' in Hq.
      destruct (is_error_log e) eqn:Ee; [|reflexivity].
      assert (existsb is_error_log (decode_events w p) = true); [|congruence].
      apply existsb_exists. now exists e.
    + symmetry. unfold loaded. apply filter_none. intros d Hdin.
      apply in_map_iff in Hdin as (p & <- & Hp).
      destruct (Hall p Hp) as (b & e' & a & r & Hs' & Hb' & Hok' & Hz').
      destruct (decoded_first_success w p b e' a r Hs' Hb' Hok') as [Hd'' _].
      now rewrite Hd'', df_empty_tagged, Hz'.
Qed.

Lemma zero_row_file_is_dropped_witness :
  fst (ingest_all_files mixed_files []) = fst (ingest_all_files mixed_files_unreadable []) /\
  exists added,
    ingest_all_files header_only_files [] =
      (Raise (RuntimeError
                "No datasets were loaded. Check file encodings or file integrity."),
       added) /\
    existsb is_error_log added = false.
Proof.
  assert (Hfail : forall (w : World) (p : Path),
             (forall enc, pd_read_csv w p enc = Raise ParseFailure) ->
             Forall (fails w p) ENCODINGS).
  { intros w p H. apply Forall_forall. intros enc _. now exists ParseFailure. }
  split.
  - destruct (zero_row_file_is_dropped mixed_files mixed_files_unreadable file_c
                [] "utf-8" ["utf-16"; "cp1252"; "latin1"] table_header_only [])
      as (_ & _ & _ & _ & H & _).
    + reflexivity.
    + constructor.
    + reflexivity.
    + reflexivity.
    + reflexivity.
    + reflexivity.
    + apply Hfail. reflexivity.
    + intros p enc Hp Hne. vm_compute in Hp.
      destruct Hp as [<-|[<-|[]]]; [reflexivity|now elim Hne].
    + exact H.
  - destruct (zero_row_file_is_dropped header_only_files header_only_but_a file_a
                [] "utf-8" ["utf-16"; "cp1252"; "latin1"] table_header_only [])
      as (_ & _ & _ & _ & _ & H).
    + reflexivity.
    + constructor.
    + reflexivity.
    + reflexivity.
    + reflexivity.
    + reflexivity.
    + apply Hfail. reflexivity.
    + intros p enc Hp Hne. vm_compute in Hp.
      destruct Hp as [<-|[<-|[]]]; [now elim Hne|reflexivity].
    + destruct H as (added & Hrun & Hquiet).
      * reflexivity.
      * discriminate.
      * intros p _. exists [], "utf-8", ["utf-16"; "cp1252"; "latin1"], table_header_only.
        repeat split. constructor.
      * exists added. split; [exact Hrun|exact Hquiet].
Defined.

(** ** The scenario of the specification *)

(** Two files, one UTF-8 with three columns and one Latin-1 with five:
    the paths that do not end in [.csv] are not discovered, the combined
    table has nine columns and the rows of both files, and each row
    carries the month of its file. *)
Example specification_scenario :
  rglob_csv two_files = [file_a; file_b] /\
  exists combined t',
    ingest_all_files two_files [] = (Ok combined, t') /\
    columns combined =
      ["job_title"; "noc"; "province"; "naics"; "city"; "vacancies"; "salary";
       "source_file"; "source_month"] /\
    nrows combined = nrows table_a + nrows table_b /\
    values_at "source_month" (cols combined)
      = [[Str "2023-01"; Str "2023-01"; Str "2023-02"]] /\
    existsb is_error_log t' = false.
Proof.
  split; [reflexivity|].
  destruct (ingest_all_files two_files []) as [[combined|e] t'] eqn:E;
    vm_compute in E; [|discriminate E].
  injection E as <- <-. eexists _, _. split; [reflexivity|]. repeat split.
Qed.

(* ================================================================= *)
(** * Further properties *)

(** ** Filename metadata extractor *)

Lemma string_app_nil_r (s : string) : (s ++ "")%string = s.
Proof. induction s as [|c s IH]; cbn; [reflexivity|now rewrite IH]. Qed.

Lemma join_holds_part (sep : ascii) (parts : list string) (part : string) :
  In part parts ->
  exists before rest, PyStr.join sep parts = (before ++ part ++ rest)%string.
Proof.
  induction parts as [|p ps IH]; intros H; [destruct H|].
  destruct ps as [|q qs].
  - destruct H as [->|[]]. exists "", "". cbn. now rewrite string_app_nil_r.
  - change (PyStr.join sep (p :: q :: qs))
      with (p ++ String sep (PyStr.join sep (q :: qs)))%string.
    destruct H as [->|H].
    + exists "", (String sep (PyStr.join sep (q :: qs))). reflexivity.
    + destruct (IH H) as (b & r & E). rewrite E.
      exists (p ++ String sep b)%string, r.
      clear. induction p as [|c p IHp]; cbn; [reflexivity|now rewrite IHp].
Qed.

Lemma split_part_infix (sep : ascii) (s part : string) :
  In part (PyStr.split sep s) -> PyStr.is_infix part s = true.
Proof.
  intros H. destruct (join_holds_part sep _ _ H) as (b & r & E).
  rewrite join_split in E. rewrite E. apply is_infix_app.
Qed.

Lemma find_month_part_spec (parts : list string) (part : string) :
  find is_month_part parts = Some part ->
  In part parts /\ PyStr.contains "-" part = true /\ String.length part = 7.
Proof.
  intros H. apply find_some in H as [Hin Hq]. unfold is_month_part in Hq.
  apply andb_true_iff in Hq as [Hh Hl]. apply Nat.eqb_eq in Hl. auto.
Qed.

(** X1. Whatever the stem, the month returned has exactly seven
    characters and no underscore: it is the sentinel, or a part of the
    stem that holds a hyphen and occurs in the stem as written. *)
Theorem extract_month_result_shape (file_path : Path) (t : Trace) :
  exists month t',
    extract_month_from_filename file_path t = (Ok month, t') /\
    String.length month = 7 /\
    PyStr.contains "_" month = false /\
    (month = "unknown" \/
     (PyStr.contains "-" month = true /\
      In month (PyStr.split "_" (stem file_path)) /\
      PyStr.is_infix month (stem file_path) = true)).
Proof.
  exists (month_of file_path), (t ++ month_warnings file_path).
  split; [apply extract_month_run|]. unfold month_of.
  destruct (find is_month_part (PyStr.split "_" (stem file_path))) as [part|] eqn:E.
  - apply find_month_part_spec in E as (Hin & Hh & Hl).
    split; [exact Hl|]. split.
    + pose proof (split_parts_free "_" (stem file_path)) as Hf.
      rewrite Forall_forall in Hf. now apply Hf.
    + right. split; [exact Hh|]. split; [exact Hin|].
      now apply split_part_infix with (sep := "_"%char).
  - split; [reflexivity|]. split; [reflexivity|now left].
Qed.

(** X2. The extractor logs at most one record, a warning, and logs it
    exactly when it returns the sentinel, which is exactly when no part
    of the stem qualifies: a part of the stem is never mistaken for the
    sentinel. *)
Theorem extract_month_warns_iff_unknown (file_path : Path) (t : Trace) :
  exists month added,
    extract_month_from_filename file_path t = (Ok month, t ++ added) /\
    (added = [] \/
     added = [Logged WARNING ("Could not extract month from " ++ name file_path)]) /\
    (month = "unknown" <-> added <> []) /\
    (month = "unknown" <->
     Forall (fun part => is_month_part part = false)
            (PyStr.split "_" (stem file_path))).
Proof.
  exists (month_of file_path), (month_warnings file_path).
  split; [apply extract_month_run|]. unfold month_of, month_warnings.
  destruct (find is_month_part (PyStr.split "_" (stem file_path))) as [part|] eqn:E.
  - pose proof (find_month_part_spec _ _ E) as (Hin & Hh & _).
    assert (Hne : part <> "unknown") by (intros ->; discriminate Hh).
    split; [now left|]. split; split; intros H; try contradiction.
    rewrite Forall_forall in H. apply find_some in E as [_ Hq].
    rewrite (H part Hin) in Hq. discriminate.
  - split; [now right|]. split; split; intros _; try reflexivity.
    + discriminate.
    + apply Forall_forall. intros part Hin. apply (find_none _ _ E part Hin).
Qed.

Lemma split_app_sep (sep : ascii) (a b : string) :
  PyStr.split sep (a ++ String sep b) = PyStr.split sep a ++ PyStr.split sep b.
Proof.
  induction a as [|c a IH]; cbn.
  - now rewrite Ascii.eqb_refl.
  - destruct (Ascii.eqb c sep); rewrite IH; [reflexivity|].
    pose proof (split_not_nil sep a) as Hn.
    destruct (PyStr.split sep a); [contradiction|reflexivity].
Qed.

Lemma split_keeps_free (c sep : ascii) (s : string) :
  PyStr.contains c s = false ->
  Forall (fun part => PyStr.contains c part = false) (PyStr.split sep s).
Proof.
  induction s as [|d s IH]; cbn; intros H.
  - repeat constructor.
  - apply orb_false_iff in H as [Hd Hs]. specialize (IH Hs).
    destruct (Ascii.eqb d sep).
    + constructor; [reflexivity|exact IH].
    + destruct (PyStr.split sep s) as [|part parts].
      * constructor; [cbn; now rewrite Hd|constructor].
      * inversion IH; subst. constructor; [cbn; now rewrite Hd|assumption].
Qed.

Lemma find_app_none {A} (f : A -> bool) (l l' : list A) :
  Forall (fun x => f x = false) l -> find f (l ++ l') = find f l'.
Proof.
  induction 1 as [|x l Hx _ IH]; [reflexivity|]. cbn. now rewrite Hx.
Qed.

(** X3. For a stem named as the docstring has it, a hyphen-free name,
    an underscore and a seven-character token with a hyphen and no
    underscore, the token is returned and nothing is logged, however
    many underscores the name holds. *)
Theorem extract_month_conventional_name (file_path : Path) (base token : string)
        (t : Trace) :
  stem file_path = (base ++ "_" ++ token)%string ->
  PyStr.contains "-" base = false ->
  PyStr.contains "-" token = true ->
  PyStr.contains "_" token = false ->
  String.length token = 7 ->
  extract_month_from_filename file_path t = (Ok token, t).
Proof.
  intros Hs Hb Hh Hu Hl. unfold extract_month_from_filename. rewrite Hs.
  change (base ++ "_" ++ token)%string with (base ++ String "_" token)%string.
  rewrite split_app_sep, (split_free _ _ Hu), find_app_none.
  - cbn [find]. unfold is_month_part. rewrite Hh, Hl. reflexivity.
  - eapply Forall_impl; [|apply (split_keeps_free "-" "_" base Hb)].
    intros part Hp. unfold is_month_part. now rewrite Hp.
Qed.

Lemma extract_month_conventional_name_witness :
  extract_month_from_filename file_conventional [] = (Ok "2023-01", []).
Proof.
  apply (extract_month_conventional_name file_conventional "job_postings" "2023-01" []);
    reflexivity.
Defined.

(** ** Schema normaliser *)

Lemma absent_from_le (labels : list string) :
  List.length (absent_from labels REQUIRED_COLUMNS) <= 7.
Proof. unfold absent_from. apply (filter_length_le _ REQUIRED_COLUMNS). Qed.

(** X4. [normalize_schema] keeps the rows: the row index is the one of
    the input and a rectangular table stays rectangular.  It adds at
    most seven columns, and logs one warning per column added and
    nothing else. *)
Theorem normalize_schema_keeps_shape (df : DataFrame) (t : Trace) :
  exists out added,
    normalize_schema df t = (Ok out, t ++ added) /\
    index out = index df /\
    (well_formed df -> well_formed out) /\
    ncols out = ncols df + List.length added /\
    List.length added <= 7 /\
    Forall (fun e => is_warning_log e = true) added.
Proof.
  exists (normalized df), (normalize_warnings df).
  split; [apply normalize_schema_run|]. split; [reflexivity|].
  split; [apply well_formed_normalized|].
  unfold normalize_warnings. rewrite length_map. split.
  - unfold ncols, normalized. cbn [cols]. now rewrite length_app, !length_map.
  - split; [apply absent_from_le|].
    apply Forall_map, Forall_forall. intros col _. reflexivity.
Qed.

(** X5. A table that already has every required column, up to case and
    surrounding blanks in its labels, only has its labels rewritten:
    no column is added and nothing is logged. *)
Theorem normalize_schema_complete_table (df : DataFrame) (t : Trace) :
  (forall col, In col REQUIRED_COLUMNS ->
               exists label, In label (columns df) /\ clean_label label = col) ->
  normalize_schema df t = (Ok (set_columns_lower_strip df), t).
Proof.
  intros H. rewrite normalize_schema_run. unfold normalized, normalize_warnings.
  rewrite absent_from_none.
  - cbn [map]. now rewrite !app_nil_r.
  - intros col Hc. destruct (H col Hc) as (label & Hin & <-). now apply in_map.
Qed.

Lemma normalize_schema_complete_table_witness :
  normalize_schema table_complete [] =
    (Ok (mkDataFrame [Int 0]
           [("job_title", [Str "baker"]); ("noc", [Int 63202]); ("naics", [Int 311]);
            ("province", [Str "NS"]); ("city", [Str "Truro"]); ("vacancies", [Int 2]);
            ("salary", [NaN]); ("employer", [Str "Mill"])]),
     []).
Proof.
  apply (normalize_schema_complete_table table_complete []).
  assert (Hin : forall label, existsb (String.eqb label) (columns table_complete) = true ->
                              In label (columns table_complete)).
  { intros label H. now apply label_in_iff. }
  intros col H. destruct H as [<-|[<-|[<-|[<-|[<-|[<-|[<-|[]]]]]]]].
  - exists " Job_Title". split; [now apply Hin|reflexivity].
  - exists "NOC". split; [now apply Hin|reflexivity].
  - exists "naics ". split; [now apply Hin|reflexivity].
  - exists "Province". split; [now apply Hin|reflexivity].
  - exists "CITY". split; [now apply Hin|reflexivity].
  - exists "Vacancies". split; [now apply Hin|reflexivity].
  - exists "salary". split; [now apply Hin|reflexivity].
Defined.

Lemma lower_clean_label (label : string) :
  PyStr.lower (clean_label label) = clean_label label.
Proof.
  unfold clean_label, PyStr.strip. now rewrite lower_rstrip, lower_lstrip, lower_idem.
Qed.

Lemma strip_clean_label (label : string) :
  PyStr.strip (clean_label label) = clean_label label.
Proof. unfold clean_label. apply strip_idem. Qed.

(** X6. Every label of the table [normalize_schema] returns is lower
    case and stripped: [label.lower()] and [label.strip()] give the
    label back. *)
Theorem normalize_schema_labels_clean (df : DataFrame) (t : Trace) :
  exists out t',
    normalize_schema df t = (Ok out, t') /\
    Forall (fun label => PyStr.lower label = label /\ PyStr.strip label = label)
           (columns out).
Proof.
  exists (normalized df), (t ++ normalize_warnings df).
  split; [apply normalize_schema_run|].
  rewrite columns_normalized. apply Forall_app. split.
  - apply Forall_map, Forall_forall. intros label _.
    split; [apply lower_clean_label|apply strip_clean_label].
  - apply Forall_forall. intros col Hc. apply absent_from_required in Hc.
    rewrite <- Hc. split; [apply lower_clean_label|apply strip_clean_label].
Qed.

Lemma normalized_nodup (df : DataFrame) :
  NoDup (columns (normalized df)) <-> NoDup (map clean_label (columns df)).
Proof.
  rewrite columns_normalized. split.
  - apply NoDup_app_remove_r.
  - intros H. apply NoDup_app; [exact H|apply NoDup_filter, required_nodup|].
    intros a Ha Hb. apply absent_from_spec in Hb as [_ Hn]. contradiction.
Qed.

(** X7. [normalize_schema] introduces no repeated label: the labels of
    its result are pairwise distinct exactly when the labels of the
    input are pairwise distinct once lower-cased and stripped. *)
Theorem normalize_schema_repeats_iff (df : DataFrame) (t : Trace) :
  exists out t',
    normalize_schema df t = (Ok out, t') /\
    (NoDup (columns out) <-> NoDup (map clean_label (columns df))).
Proof.
  exists (normalized df), (t ++ normalize_warnings df).
  split; [apply normalize_schema_run|apply normalized_nodup].
Qed.

(** ** File decoder *)

(** X8. The table [read_csv_file] returns is empty exactly when every
    candidate encoding fails, or the first candidate that parses gives a
    table without rows. *)
Theorem read_csv_file_empty_iff (w : World) (file_path : Path) (t : Trace) :
  exists df t',
    read_csv_file w file_path t = (Ok df, t') /\
    (df_empty df = true <->
     (Forall (fails w file_path) ENCODINGS \/
      exists before encoding after raw,
        ENCODINGS = before ++ encoding :: after /\
        Forall (fails w file_path) before /\
        pd_read_csv w file_path encoding = Ok raw /\
        nrows raw = 0)).
Proof.
  exists (decoded w file_path), (t ++ decode_events w file_path).
  split; [apply read_csv_file_run|].
  destruct (first_parse w file_path ENCODINGS)
    as [(before & enc & after & raw & Hs & Hb & Hok)|Hall].
  - destruct (decoded_first_success w _ _ _ _ _ Hs Hb Hok) as [Hd _].
    rewrite Hd, df_empty_tagged. split.
    + intros H. apply Nat.eqb_eq in H. right. now exists before, enc, after, raw.
    + intros [Hall|(b & e & a & r & Hs' & Hb' & Hok' & Hz)].
      * rewrite Forall_forall in Hall. destruct (Hall enc) as [x Hx].
        { rewrite Hs. apply in_app_iff. right. now left. }
        congruence.
      * destruct (decoded_first_success w _ _ _ _ _ Hs' Hb' Hok') as [Hd' _].
        rewrite Hd in Hd'. rewrite <- (nrows_tagged file_path raw), Hd', nrows_tagged, Hz.
        reflexivity.
  - destruct (decoded_all_fail w _ Hall) as [Hd _]. rewrite Hd. split; [now left|reflexivity].
Qed.

Lemma reads_of_app (a b : Trace) : reads_of (a ++ b) = reads_of a ++ reads_of b.
Proof. unfold reads_of. apply flat_map_app. Qed.

Lemma reads_of_reads (file_path : Path) (encodings : list string) :
  reads_of (map (ReadCsv file_path) encodings) = map (pair file_path) encodings.
Proof. induction encodings as [|e l IH]; cbn; [reflexivity|now rewrite <- IH]. Qed.

Lemma reads_of_logs (evs : Trace) :
  Forall (fun e => exists level msg, e = Logged level msg) evs -> reads_of evs = [].
Proof.
  induction 1 as [|e evs (level & msg & ->) _ IH]; [reflexivity|]. cbn. exact IH.
Qed.

Lemma normalize_warnings_logs (raw : DataFrame) :
  Forall (fun e => exists msg, e = Logged WARNING msg) (normalize_warnings raw).
Proof.
  unfold normalize_warnings. apply Forall_map, Forall_forall. intros col _.
  now exists (missing_column_message col).
Qed.

Lemma month_warnings_logs (file_path : Path) :
  Forall (fun e => exists msg, e = Logged WARNING msg) (month_warnings file_path).
Proof.
  unfold month_warnings. destruct (find is_month_part _); repeat constructor.
  now eexists.
Qed.

Lemma warnings_filtered (f : Event -> bool) (evs : Trace) :
  (forall msg, f (Logged WARNING msg) = false) ->
  Forall (fun e => exists msg, e = Logged WARNING msg) evs ->
  filter f evs = [].
Proof.
  intros Hf H. apply filter_none. intros e He.
  rewrite Forall_forall in H. destruct (H e He) as [msg ->]. apply Hf.
Qed.

Lemma reads_filtered (f : Event -> bool) (file_path : Path) (encodings : list string) :
  (forall enc, f (ReadCsv file_path enc) = false) ->
  filter f (map (ReadCsv file_path) encodings) = [].
Proof.
  intros Hf. apply filter_none. intros e He.
  apply in_map_iff in He as (enc & <- & _). apply Hf.
Qed.

Lemma warnings_read_nothing (evs : Trace) :
  Forall (fun e => exists msg, e = Logged WARNING msg) evs -> reads_of evs = [].
Proof.
  intros H. apply reads_of_logs. eapply Forall_impl; [|exact H].
  intros e [msg ->]. now exists WARNING, msg.
Qed.

(** What one decoding adds to the trace, as counts. *)
Lemma decode_events_profile (w : World) (file_path : Path) :
  exists k,
    1 <= k <= 4 /\
    reads_of (decode_events w file_path) = map (pair file_path) (firstn k ENCODINGS) /\
    Forall (fails w file_path) (firstn (k - 1) ENCODINGS) /\
    List.length (filter is_info_log (decode_events w file_path))
    + List.length (filter is_error_log (decode_events w file_path)) = 1 /\
    List.length (filter is_error_log (decode_events w file_path))
    = (if undecodable w file_path then 1 else 0).
Proof.
  destruct (first_parse w file_path ENCODINGS)
    as [(before & enc & after & raw & Hs & Hb & Hok)|Hall].
  - destruct (decoded_first_success w _ _ _ _ _ Hs Hb Hok) as [_ Hev].
    assert (Hlen : List.length before + 1 <= 4).
    { apply (f_equal (@List.length string)) in Hs. rewrite length_app in Hs.
      cbn in Hs. lia. }
    assert (Hund : undecodable w file_path = false).
    { unfold undecodable. apply not_true_is_false. intros H.
      rewrite forallb_forall in H. specialize (H enc). unfold parses in H.
      rewrite Hok in H. discriminate H. rewrite Hs. apply in_app_iff. right. now left. }
    exists (List.length before + 1). split; [lia|].
    rewrite Hev, Hund. unfold loaded_events.
    rewrite !reads_of_app, reads_of_reads, !filter_app.
    rewrite (warnings_read_nothing _ (normalize_warnings_logs raw)).
    rewrite (warnings_read_nothing _ (month_warnings_logs file_path)).
    rewrite !(reads_filtered _ file_path before) by reflexivity.
    rewrite !(warnings_filtered _ _ (fun _ => eq_refl) (normalize_warnings_logs raw)).
    rewrite !(warnings_filtered _ _ (fun _ => eq_refl) (month_warnings_logs file_path)).
    cbn [reads_of flat_map filter is_info_log is_error_log app List.length].
    rewrite Hs.
    replace (List.length before + 1 - 1) with (List.length before) by lia.
    rewrite !firstn_app, !firstn_all, Nat.sub_diag.
    replace (List.length before + 1 - List.length before) with 1 by lia.
    cbn [firstn]. rewrite map_app, !app_nil_r.
    replace (firstn (List.length before + 1) before) with before
      by (symmetry; apply firstn_all2; lia).
    repeat split; assumption.
  - destruct (decoded_all_fail w _ Hall) as [_ Hev].
    assert (Hund : undecodable w file_path = true).
    { unfold undecodable. apply forallb_forall. intros enc Hin.
      rewrite Forall_forall in Hall. apply negb_true_iff, parses_false, Hall, Hin. }
    exists 4. split; [lia|]. rewrite Hev, Hund. unfold failure_events.
    rewrite !reads_of_app, reads_of_reads, !filter_app.
    rewrite !(reads_filtered _ file_path ENCODINGS) by reflexivity.
    cbn [reads_of flat_map filter is_info_log is_error_log app List.length].
    rewrite app_nil_r. repeat split.
    rewrite Forall_forall in *. intros enc Hin. apply Hall.
    cbn in Hin. cbn. tauto.
Qed.

(** X9. [read_csv_file] reads the file at least once and at most four
    times, under the candidates in their order and up to the first that
    does not fail; apart from warnings it logs exactly one record, the
    info record of a success or the error record of a failure. *)
Theorem read_csv_file_reads_in_order (w : World) (file_path : Path) (t : Trace) :
  exists k added,
    1 <= k <= 4 /\
    snd (read_csv_file w file_path t) = t ++ added /\
    reads_of added = map (pair file_path) (firstn k ENCODINGS) /\
    Forall (fails w file_path) (firstn (k - 1) ENCODINGS) /\
    List.length (filter is_info_log added)
    + List.length (filter is_error_log added) = 1.
Proof.
  destruct (decode_events_profile w file_path) as (k & Hk & Hr & Hf & Hone & _).
  exists k, (decode_events w file_path). rewrite read_csv_file_run. cbn [snd].
  repeat split; try assumption; lia.
Qed.

Lemma columns_setitem (df : DataFrame) (key : string) (value : cell) :
  columns (setitem df key value) =
    if label_in key (columns df) then columns df else columns df ++ [key].
Proof.
  unfold setitem. destruct (label_in key (columns df)); unfold columns; cbn [cols].
  - rewrite map_map. apply map_ext. intros c.
    destruct (String.eqb (fst c) key) eqn:E; [|reflexivity].
    apply String.eqb_eq in E. now rewrite E.
  - now rewrite map_app.
Qed.

Lemma index_setitem (df : DataFrame) (key : string) (value : cell) :
  index (setitem df key value) = index df.
Proof. unfold setitem. now destruct (label_in key (columns df)). Qed.

Lemma nodup_setitem (df : DataFrame) (key : string) (value : cell) :
  NoDup (columns df) -> NoDup (columns (setitem df key value)).
Proof.
  intros H. rewrite columns_setitem.
  destruct (label_in key (columns df)) eqn:E; [exact H|].
  apply NoDup_app; [exact H|repeat constructor; intros []|].
  intros a Ha [<-|[]]. apply label_in_iff in Ha. congruence.
Qed.

Lemma ncols_setitem (df : DataFrame) (key : string) (value : cell) :
  ncols df <= ncols (setitem df key value) <= ncols df + 1.
Proof.
  assert (H : forall d, ncols d = List.length (columns d)).
  { intros d. unfold ncols, columns. now rewrite length_map. }
  rewrite !H, columns_setitem.
  destruct (label_in key (columns df)); [lia|]. rewrite length_app. cbn. lia.
Qed.

Lemma tagged_has_labels (file_path : Path) (raw : DataFrame) (label : string) :
  In label TABLE_LABELS -> In label (columns (tagged file_path raw)).
Proof.
  unfold TABLE_LABELS. rewrite in_app_iff. intros [H|[<-|[<-|[]]]].
  - unfold tagged. now apply columns_setitem_keeps, columns_setitem_keeps, normalized_has_required.
  - apply tagged_source_file.
  - apply tagged_source_month.
Qed.

Lemma nine_labels (labels : list string) :
  (forall label, In label TABLE_LABELS -> In label labels) -> 9 <= List.length labels.
Proof.
  intros H. change 9 with (List.length TABLE_LABELS).
  apply NoDup_incl_length; [|exact H].
  apply is_unique_iff. reflexivity.
Qed.

Lemma ncols_columns (df : DataFrame) : ncols df = List.length (columns df).
Proof. unfold ncols, columns. now rewrite length_map. Qed.

(** X10. When a candidate parses the file first, the table returned has
    the row index of the parsed table, is rectangular if the parsed
    table is, and carries the seven required labels and the two source
    labels; it has at least nine columns, and at most nine more than
    the parsed table. *)
Theorem read_csv_file_parsed_shape (w : World) (file_path : Path)
        (before : list string) (encoding : string) (after : list string)
        (raw : DataFrame) (t : Trace) :
  ENCODINGS = before ++ encoding :: after ->
  Forall (fails w file_path) before ->
  pd_read_csv w file_path encoding = Ok raw ->
  exists df t',
    read_csv_file w file_path t = (Ok df, t') /\
    index df = index raw /\
    (well_formed raw -> well_formed df) /\
    (forall label, In label REQUIRED_COLUMNS \/ label = "source_file"
                   \/ label = "source_month" -> In label (columns df)) /\
    9 <= ncols df /\ ncols raw <= ncols df <= ncols raw + 9.
Proof.
  intros Hs Hb Hok.
  destruct (decoded_first_success w _ _ _ _ _ Hs Hb Hok) as [Hd _].
  exists (decoded w file_path), (t ++ decode_events w file_path).
  split; [apply read_csv_file_run|]. rewrite Hd.
  split; [unfold tagged; now rewrite !index_setitem|].
  split; [apply well_formed_tagged|].
  assert (Hl : forall label, In label TABLE_LABELS ->
                             In label (columns (tagged file_path raw))).
  { intros label. apply tagged_has_labels. }
  split.
  - intros label H. apply Hl. unfold TABLE_LABELS. rewrite in_app_iff.
    destruct H as [H|[ -> | -> ]]; [now left|right; now left|right; right; now left].
  - split; [rewrite ncols_columns; now apply nine_labels|].
    unfold tagged.
    pose proof (ncols_setitem (setitem (normalized raw) "source_file" (Str (name file_path)))
                  "source_month" (Str (month_of file_path))) as H1.
    pose proof (ncols_setitem (normalized raw) "source_file" (Str (name file_path))) as H2.
    assert (H3 : ncols raw <= ncols (normalized raw) <= ncols raw + 7).
    { unfold ncols, normalized. cbn [cols]. rewrite length_app, !length_map.
      pose proof (absent_from_le (map clean_label (columns raw))). lia. }
    lia.
Qed.

Lemma read_csv_file_parsed_shape_witness :
  exists df t',
    read_csv_file two_files file_b [] = (Ok df, t') /\
    index df = [Int 0] /\ 9 <= ncols df <= 14.
Proof.
  destruct (read_csv_file_parsed_shape two_files file_b
              ["utf-8"; "utf-16"; "cp1252"] "latin1" [] table_b [])
    as (df & t' & Hrun & Hi & _ & _ & H9 & Hn).
  - reflexivity.
  - repeat constructor; exists ParseFailure; reflexivity.
  - reflexivity.
  - exists df, t'. split; [exact Hrun|]. split; [exact Hi|].
    change (ncols table_b) with 5 in Hn. lia.
Defined.

(** ** Dataset assembler *)

(** The outcome and the trace of [ingest_all_files], case by case. *)
Lemma ingest_all_files_cases (w : World) (t : Trace) :
  (raw_data_exists w = false /\
   ingest_all_files w t = (Raise DISCOVERY_MISSING, t))
  \/ (raw_data_exists w = true /\ rglob_csv w = [] /\
      ingest_all_files w t = (Raise DISCOVERY_EMPTY, t))
  \/ (raw_data_exists w = true /\ rglob_csv w <> [] /\
      exists discovered tail,
        discovered = Logged INFO ("Discovered " ++ PyStr.of_nat (List.length (rglob_csv w))
                                  ++ " files.") /\
        snd (ingest_all_files w t) =
          t ++ discovered :: flat_map (decode_events w) (rglob_csv w) ++ tail /\
        ((loaded w (rglob_csv w) = [] /\ tail = [] /\
          fst (ingest_all_files w t) = Raise NO_VALID_DATA)
         \/ (loaded w (rglob_csv w) <> [] /\ tail = [] /\
             pd_concat (loaded w (rglob_csv w)) = Raise CONCAT_REFUSED /\
             fst (ingest_all_files w t) = Raise CONCAT_REFUSED)
         \/ (exists combined,
               loaded w (rglob_csv w) <> [] /\
               pd_concat (loaded w (rglob_csv w)) = Ok combined /\
               tail = [Logged INFO ("Combined dataset shape: " ++ shape_string combined)] /\
               fst (ingest_all_files w t) = Ok combined))).
Proof.
  destruct (raw_data_exists w) eqn:He.
  2:{ left. split; [reflexivity|]. unfold ingest_all_files. now rewrite He. }
  right. destruct (list_eq_dec Path_eq_dec (rglob_csv w) []) as [Ef|Hf].
  { left. split; [reflexivity|]. split; [exact Ef|].
    unfold ingest_all_files. now rewrite He, Ef. }
  right. split; [reflexivity|]. split; [exact Hf|].
  rewrite (ingest_all_files_run w t He Hf).
  destruct (loaded w (rglob_csv w)) as [|d ds] eqn:El.
  - eexists _, []. split; [reflexivity|]. cbn [fst snd]. split.
    + now rewrite app_nil_r.
    + left. repeat split.
  - destruct (pd_concat (d :: ds)) as [combined|e] eqn:Ec.
    + eexists _, [_]. split; [reflexivity|]. cbn [fst snd]. split.
      * rewrite <- !app_assoc. reflexivity.
      * right. right. exists combined. repeat split. discriminate.
    + eexists _, []. split; [reflexivity|]. cbn [fst snd]. split.
      * now rewrite app_nil_r.
      * right. left. split; [discriminate|]. split; [reflexivity|].
        assert (e = CONCAT_REFUSED); [|subst; now split].
        unfold pd_concat in Ec.
        destruct (forallb _ ds); [discriminate|].
        destruct (forallb _ (d :: ds)); [discriminate|]. now injection Ec as <-.
Qed.

Lemma reads_of_flat_map (w : World) (files : list Path) :
  reads_of (flat_map (decode_events w) files)
  = flat_map (fun p => reads_of (decode_events w p)) files.
Proof.
  induction files as [|p files IH]; [reflexivity|].
  cbn [flat_map]. now rewrite reads_of_app, IH.
Qed.

(** X11. The files are read in discovery order, each at least once and
    at most four times, under the candidates in their order.  No read
    is made of a path outside the directory listing or of a name that
    does not end in [.csv], and none when the directory is missing. *)
Theorem ingest_all_files_reads (w : World) (t : Trace) :
  exists added (reads : Path -> nat),
    snd (ingest_all_files w t) = t ++ added /\
    (forall p, 1 <= reads p <= 4) /\
    reads_of added =
      flat_map (fun p => map (pair p) (firstn (reads p) ENCODINGS))
               (if raw_data_exists w then rglob_csv w else []) /\
    (forall p encoding,
        In (p, encoding) (reads_of added) ->
        raw_data_exists w = true /\ In p (raw_data_tree w) /\
        PyStr.endswith ".csv" (name p) = true /\ In encoding ENCODINGS).
Proof.
  set (reads := fun p => List.length (reads_of (decode_events w p))).
  assert (Hreads : forall p, 1 <= reads p <= 4 /\
            reads_of (decode_events w p) = map (pair p) (firstn (reads p) ENCODINGS)).
  { intros p. destruct (decode_events_profile w p) as (k & Hk & Hr & _).
    assert (reads p = k).
    { unfold reads. rewrite Hr, length_map, length_firstn. cbn. lia. }
    split; [lia|]. now rewrite H. }
  assert (Hall : forall files,
            flat_map (fun p => reads_of (decode_events w p)) files
            = flat_map (fun p => map (pair p) (firstn (reads p) ENCODINGS)) files).
  { intros files. apply flat_map_ext. intros p. apply Hreads. }
  assert (Hin : forall files p enc,
            In (p, enc) (flat_map (fun p => map (pair p) (firstn (reads p) ENCODINGS)) files) ->
            In p files /\ In enc ENCODINGS).
  { intros files p enc H. apply in_flat_map in H as (q & Hq & H).
    apply in_map_iff in H as (e & He & Hi). injection He as <- <-.
    split; [assumption|].
    rewrite <- (firstn_skipn (reads q) ENCODINGS). apply in_app_iff. now left. }
  assert (Hfinal : forall added,
            reads_of added =
              flat_map (fun p => map (pair p) (firstn (reads p) ENCODINGS))
                       (if raw_data_exists w then rglob_csv w else []) ->
            forall p enc, In (p, enc) (reads_of added) ->
              raw_data_exists w = true /\ In p (raw_data_tree w) /\
              PyStr.endswith ".csv" (name p) = true /\ In enc ENCODINGS).
  { intros added E p enc H. rewrite E in H. apply Hin in H as [Hp He].
    destruct (raw_data_exists w); [|destruct Hp].
    unfold rglob_csv in Hp. apply filter_In in Hp as [Hp Hn]. auto. }
  destruct (ingest_all_files_cases w t)
    as [[He Hrun]|[(He & Hf & Hrun)|(He & Hf & d & tail & Hd & Hrun & Htail)]].
  - exists [], reads. rewrite Hrun, He, app_nil_r.
    split; [reflexivity|]. split; [apply Hreads|]. split; [reflexivity|].
    intros p enc [].
  - exists [], reads. rewrite Hrun, He, Hf, app_nil_r.
    split; [reflexivity|]. split; [apply Hreads|]. split; [reflexivity|].
    intros p enc [].
  - exists (d :: flat_map (decode_events w) (rglob_csv w) ++ tail), reads.
    split; [exact Hrun|]. split; [apply Hreads|].
    assert (Htl : reads_of tail = []).
    { destruct Htail as [(_ & -> & _)|[(_ & -> & _)|(c & _ & _ & -> & _)]]; reflexivity. }
    assert (E : reads_of (d :: flat_map (decode_events w) (rglob_csv w) ++ tail)
                = flat_map (fun p => map (pair p) (firstn (reads p) ENCODINGS))
                           (if raw_data_exists w then rglob_csv w else [])).
    { rewrite He, Hd. cbn [reads_of flat_map app].
      fold (reads_of (flat_map (decode_events w) (rglob_csv w) ++ tail)).
      rewrite reads_of_app, Htl, app_nil_r, reads_of_flat_map. apply Hall. }
    split; [exact E|]. now apply Hfinal.
Qed.

Lemma errors_of_decodes (w : World) (files : list Path) :
  List.length (filter is_error_log (flat_map (decode_events w) files))
  = List.length (filter (undecodable w) files).
Proof.
  induction files as [|p files IH]; [reflexivity|].
  cbn [flat_map filter]. rewrite filter_app, length_app, IH.
  destruct (decode_events_profile w p) as (_ & _ & _ & _ & _ & He). rewrite He.
  destruct (undecodable w p); reflexivity.
Qed.

(** X12. When the directory exists, a run logs exactly one error record
    per discovered file that no candidate encoding parses, whatever its
    outcome: a file that parses to an empty table, and the failure to
    combine, add none. *)
Theorem ingest_all_files_error_records (w : World) (t : Trace) :
  raw_data_exists w = true ->
  exists added,
    snd (ingest_all_files w t) = t ++ added /\
    List.length (filter is_error_log added)
    = List.length (filter (undecodable w) (rglob_csv w)).
Proof.
  intros He.
  destruct (ingest_all_files_cases w t)
    as [[He' _]|[(_ & Hf & Hrun)|(_ & Hf & d & tail & Hd & Hrun & Htail)]].
  - congruence.
  - exists []. rewrite Hrun, Hf, app_nil_r. now split.
  - exists (d :: flat_map (decode_events w) (rglob_csv w) ++ tail).
    split; [exact Hrun|]. rewrite Hd. cbn [filter is_error_log].
    assert (Ht : filter is_error_log tail = []).
    { destruct Htail as [(_ & -> & _)|[(_ & -> & _)|(c & _ & _ & -> & _)]]; reflexivity. }
    rewrite filter_app, length_app, errors_of_decodes, Ht. cbn [List.length]. lia.
Qed.

Lemma ingest_all_files_error_records_witness :
  exists added,
    snd (ingest_all_files garbage_files []) = added /\
    List.length (filter is_error_log added) = 2.
Proof.
  destruct (ingest_all_files_error_records garbage_files [] eq_refl) as (added & Hrun & Hn).
  exists added. split; [exact Hrun|exact Hn].
Defined.

Lemma loaded_rows (w : World) (files : list Path) :
  List.length (loaded w files) <= list_sum (map nrows (loaded w files)).
Proof.
  assert (H : forall ds, Forall (fun d => nrows d <> 0) ds ->
                         List.length ds <= list_sum (map nrows ds)).
  { induction 1 as [|d ds Hd _ IH]; [reflexivity|]. cbn [List.length map].
    change (list_sum (nrows d :: map nrows ds)) with (nrows d + list_sum (map nrows ds)).
    lia. }
  apply H, Forall_forall. intros d Hd.
  apply loaded_tagged in Hd as (p & enc & raw & _ & _ & -> & Hn).
  now rewrite nrows_tagged.
Qed.

Lemma loaded_has_labels (w : World) (files : list Path) (d : DataFrame) (label : string) :
  In d (loaded w files) -> In label TABLE_LABELS -> In label (columns d).
Proof.
  intros Hd Hl. apply loaded_tagged in Hd as (p & enc & raw & _ & _ & -> & _).
  now apply tagged_has_labels.
Qed.

(** X13. A table returned by [ingest_all_files] is never empty: it has
    at least one row per table kept, hence at least one, and it carries
    the seven required labels and the two source labels, hence at least
    nine columns. *)
Theorem ingest_all_files_table_not_empty (w : World) (t t' : Trace) (combined : DataFrame) :
  ingest_all_files w t = (Ok combined, t') ->
  df_empty combined = false /\
  1 <= List.length (loaded w (rglob_csv w)) <= nrows combined /\
  9 <= ncols combined /\
  (forall label, In label REQUIRED_COLUMNS \/ label = "source_file"
                 \/ label = "source_month" -> In label (columns combined)).
Proof.
  intros H. apply ingest_all_files_ok_inv in H as (_ & _ & Hne & Hc).
  destruct (pd_concat_result _ _ Hc) as (Hidx & Hlabels & _ & _).
  assert (Hrows : 1 <= List.length (loaded w (rglob_csv w)) <= nrows combined).
  { unfold nrows at 1. rewrite Hidx, length_RangeIndex.
    pose proof (loaded_rows w (rglob_csv w)).
    destruct (loaded w (rglob_csv w)); [contradiction|cbn in *; lia]. }
  assert (Hl : forall label, In label TABLE_LABELS -> In label (columns combined)).
  { intros label Hin. apply Hlabels.
    destruct (loaded w (rglob_csv w)) as [|d ds] eqn:E; [contradiction|].
    exists d. split; [now left|]. apply (loaded_has_labels w (rglob_csv w)); [|exact Hin].
    rewrite E. now left. }
  assert (H9 : 9 <= ncols combined) by (rewrite ncols_columns; now apply nine_labels).
  split.
  - unfold df_empty. apply orb_false_iff. split; apply Nat.eqb_neq; lia.
  - split; [exact Hrows|]. split; [exact H9|].
    intros label Hin. apply Hl. unfold TABLE_LABELS. rewrite in_app_iff.
    destruct Hin as [Hin|[ -> | -> ]]; [now left|right; now left|right; right; now left].
Qed.

Lemma ingest_all_files_table_not_empty_witness :
  exists combined,
    fst (ingest_all_files two_files []) = Ok combined /\
    df_empty combined = false /\ 2 <= nrows combined.
Proof.
  destruct (ingest_all_files two_files []) as [[combined|e] t'] eqn:E;
    [|vm_compute in E; discriminate E].
  exists combined. split; [reflexivity|].
  destruct (ingest_all_files_table_not_empty two_files [] t' combined E)
    as (Hne & Hrows & _).
  split; [exact Hne|]. change (List.length (loaded two_files (rglob_csv two_files))) with 2 in Hrows.
  lia.
Defined.

(** X14. When exactly one table is kept, it is returned with its columns
    as they are and a fresh row index; this holds even if its labels
    repeat, since a table alone is never reindexed. *)
Theorem ingest_all_files_single_table (w : World) (t : Trace) (d : DataFrame) :
  raw_data_exists w = true ->
  loaded w (rglob_csv w) = [d] ->
  exists t',
    ingest_all_files w t = (Ok (mkDataFrame (RangeIndex (nrows d)) (cols d)), t').
Proof.
  intros He Hl.
  assert (Hf : rglob_csv w <> []).
  { intros E. rewrite E in Hl. discriminate. }
  assert (Hc : pd_concat [d] = Ok (mkDataFrame (RangeIndex (nrows d)) (cols d))).
  { unfold pd_concat, list_sum. cbn [forallb fold_left map fold_right].
    now rewrite Nat.add_0_r. }
  rewrite (ingest_all_files_run w t He Hf), Hl, Hc.
  eexists. reflexivity.
Qed.

Lemma ingest_all_files_single_table_witness :
  exists combined t',
    ingest_all_files clash_alone [] = (Ok combined, t') /\
    columns combined =
      ["city"; "city"; "job_title"; "noc"; "naics"; "province"; "vacancies"; "salary";
       "source_file"; "source_month"] /\
    index combined = [Int 0].
Proof.
  destruct (ingest_all_files_single_table clash_alone []
              (decoded clash_alone file_a) eq_refl eq_refl) as [t' H].
  eexists _, t'. split; [exact H|]. split; reflexivity.
Defined.

Lemma loaded_nodup (w : World) (files : list Path) :
  (forall p enc raw, In p files -> pd_read_csv w p enc = Ok raw ->
                     NoDup (map clean_label (columns raw))) ->
  forall d, In d (loaded w files) -> NoDup (columns d).
Proof.
  intros H d Hd. apply loaded_tagged in Hd as (p & enc & raw & Hp & Hok & -> & _).
  unfold tagged. apply nodup_setitem, nodup_setitem, normalized_nodup.
  now apply (H p enc raw).
Qed.

(** X15. If no parsed file has two labels that are equal once
    lower-cased and stripped, [pd.concat] is never refused: the run
    raises no [InvalidIndexError], and it returns a table as soon as the
    directory exists and one file yields a table with rows. *)
Theorem ingest_all_files_clash_free (w : World) (t : Trace) :
  (forall p enc raw, In p (rglob_csv w) -> pd_read_csv w p enc = Ok raw ->
                     NoDup (map clean_label (columns raw))) ->
  (forall msg, fst (ingest_all_files w t) <> Raise (InvalidIndexError msg)) /\
  (raw_data_exists w = true -> loaded w (rglob_csv w) <> [] ->
   exists combined, fst (ingest_all_files w t) = Ok combined).
Proof.
  intros H. pose proof (loaded_nodup w (rglob_csv w) H) as Hnd.
  assert (Hacc : loaded w (rglob_csv w) <> [] ->
                 exists c, pd_concat (loaded w (rglob_csv w)) = Ok c).
  { intros Hne. apply pd_concat_accepts; [exact Hne|now right]. }
  destruct (ingest_all_files_cases w t)
    as [[He Hrun]|[(He & Hf & Hrun)|(He & Hf & d & tail & _ & _ & Htail)]].
  - rewrite Hrun. split; [discriminate|congruence].
  - rewrite Hrun. split; [discriminate|].
    intros _ Hne. rewrite Hf in Hne. now elim Hne.
  - destruct Htail as [(Hl & _ & ->)|[(Hne & _ & Hc & _)|(c & _ & _ & _ & ->)]].
    + split; [discriminate|]. intros _ Hne. contradiction.
    + destruct (Hacc Hne) as [c Hc']. congruence.
    + split; [discriminate|]. intros _ _. now exists c.
Qed.

Lemma ingest_all_files_clash_free_witness :
  exists combined, fst (ingest_all_files two_files []) = Ok combined.
Proof.
  destruct (ingest_all_files_clash_free two_files []) as [_ H].
  - intros p enc raw Hp Hok. apply is_unique_iff.
    vm_compute in Hp. destruct Hp as [<-|[<-|[]]].
    + injection Hok as <-. reflexivity.
    + cbn in Hok. destruct (String.eqb enc "latin1"); [|discriminate].
      injection Hok as <-. reflexivity.
  - apply H; [reflexivity|discriminate].
Defined.

(** ** Discovery order *)

Lemma Permutation_filter_same {A} (f : A -> bool) (l l' : list A) :
  Permutation l l' -> Permutation (filter f l) (filter f l').
Proof.
  induction 1 as [|x l l' _ IH|x y l|l l' l'' _ IH1 _ IH2]; cbn.
  - constructor.
  - destruct (f x); [now constructor|exact IH].
  - destruct (f x), (f y); try apply Permutation_refl. apply perm_swap.
  - now apply Permutation_trans with (filter f l').
Qed.

Lemma list_sum_permutation (l l' : list nat) :
  Permutation l l' -> list_sum l = list_sum l'.
Proof.
  unfold list_sum.
  induction 1 as [|x l l' _ IH|x y l|l l' l'' _ IH1 _ IH2]; cbn [fold_right]; lia.
Qed.

Lemma pd_concat_outcome (objs : list DataFrame) :
  objs <> [] ->
  (exists combined, pd_concat objs = Ok combined /\ (same_labels objs \/ unique_labels objs))
  \/ (pd_concat objs = Raise CONCAT_REFUSED /\ ~ same_labels objs /\ ~ unique_labels objs).
Proof.
  destruct objs as [|first others]; [contradiction|]. intros _.
  destruct (forallb (fun df => labels_equal (columns df) (columns first)) others) eqn:E.
  - pose proof (proj1 (same_labels_forallb _ _) E) as Hs.
    left. eexists. split; [apply (pd_concat_same first others Hs)|].
    left. exact (proj2 (same_labels_first first others) Hs).
  - assert (Hs : ~ (forall d, In d (first :: others) -> columns d = columns first)).
    { intros Hs. rewrite (proj2 (same_labels_forallb _ _) Hs) in E. discriminate. }
    destruct (forallb (fun df => is_unique (columns df)) (first :: others)) eqn:U.
    + pose proof (proj1 (unique_labels_forallb _) U) as Hu.
      left. eexists. split; [apply (pd_concat_union first others Hs Hu)|now right].
    + assert (Hu : ~ (forall d, In d (first :: others) -> NoDup (columns d))).
      { intros Hu. rewrite (proj2 (unique_labels_forallb _) Hu) in U. discriminate. }
      right. split; [apply (pd_concat_refused first others Hs Hu)|].
      split; [|exact Hu]. intros H. apply Hs.
      exact (proj1 (same_labels_first first others) H).
Qed.

Lemma pd_concat_permutation (objs objs' : list DataFrame) :
  Permutation objs objs' -> same_outcome (pd_concat objs) (pd_concat objs').
Proof.
  intros HP.
  destruct objs as [|d ds].
  { apply Permutation_nil in HP. subst. reflexivity. }
  assert (Hne : d :: ds <> []) by discriminate.
  assert (Hne' : objs' <> []).
  { intros ->. apply Permutation_sym, Permutation_nil in HP. discriminate. }
  assert (Hin : forall x, In x (d :: ds) <-> In x objs').
  { intros x. split; [apply Permutation_in; exact HP
                     |apply Permutation_in, Permutation_sym; exact HP]. }
  assert (Hsame : same_labels (d :: ds) <-> same_labels objs').
  { unfold same_labels. split; intros H a b Ha Hb; apply H; now apply Hin. }
  assert (Huniq : unique_labels (d :: ds) <-> unique_labels objs').
  { unfold unique_labels. split; intros H a Ha; apply H; now apply Hin. }
  destruct (pd_concat_outcome (d :: ds) Hne) as [(c & Hc & Hacc)|(Hc & Hs & Hu)];
    destruct (pd_concat_outcome objs' Hne') as [(c' & Hc' & Hacc')|(Hc' & Hs' & Hu')];
    rewrite Hc, Hc'; unfold same_outcome; try tauto.
  destruct (pd_concat_result _ _ Hc) as (Hi & Hl & _).
  destruct (pd_concat_result _ _ Hc') as (Hi' & Hl' & _).
  split.
  - unfold nrows. rewrite Hi, Hi', !length_RangeIndex.
    symmetry. apply list_sum_permutation, Permutation_map, HP.
  - intros label. rewrite Hl, Hl'. split; intros (x & Hx & Hlab); exists x; split;
      try assumption; now apply Hin.
Qed.

Lemma ingest_all_files_value (w : World) (t : Trace) :
  fst (ingest_all_files w t) =
    if raw_data_exists w
    then match rglob_csv w with
         | [] => Raise DISCOVERY_EMPTY
         | _ => match loaded w (rglob_csv w) with
                | [] => Raise NO_VALID_DATA
                | dfs => pd_concat dfs
                end
         end
    else Raise DISCOVERY_MISSING.
Proof.
  destruct (raw_data_exists w) eqn:He.
  2:{ unfold ingest_all_files. now rewrite He. }
  destruct (list_eq_dec Path_eq_dec (rglob_csv w) []) as [Ef|Hf].
  { unfold ingest_all_files. now rewrite He, Ef. }
  rewrite (ingest_all_files_run w t He Hf).
  destruct (rglob_csv w) as [|p ps] eqn:E; [contradiction|].
  destruct (loaded w (p :: ps)) as [|d ds]; [reflexivity|].
  destruct (pd_concat (d :: ds)); reflexivity.
Qed.

(** X16. The order in which the directory traversal yields the paths
    does not change the outcome: two listings that are permutations of
    each other give the same exception, or tables with the same number
    of rows and the same labels. *)
Theorem ingest_all_files_order_independent (w w' : World) (t : Trace) :
  raw_data_exists w' = raw_data_exists w ->
  Permutation (raw_data_tree w) (raw_data_tree w') ->
  (forall p enc, pd_read_csv w' p enc = pd_read_csv w p enc) ->
  match fst (ingest_all_files w t), fst (ingest_all_files w' t) with
  | Ok combined, Ok combined' =>
      nrows combined' = nrows combined /\
      forall label, In label (columns combined') <-> In label (columns combined)
  | Raise e, Raise e' => e' = e
  | _, _ => False
  end.
Proof.
  intros He HP Hread.
  assert (Hfiles : Permutation (rglob_csv w) (rglob_csv w')).
  { unfold rglob_csv. now apply Permutation_filter_same. }
  assert (Hloaded : Permutation (loaded w (rglob_csv w)) (loaded w' (rglob_csv w'))).
  { unfold loaded. apply Permutation_filter_same.
    replace (map (decoded w') (rglob_csv w')) with (map (decoded w) (rglob_csv w')).
    - now apply Permutation_map.
    - apply map_ext. intros p. symmetry. apply decoded_ext. intros enc. apply Hread. }
  rewrite !ingest_all_files_value, He.
  destruct (raw_data_exists w); [|reflexivity].
  destruct (rglob_csv w) as [|p ps] eqn:Ef.
  { apply Permutation_nil in Hfiles. rewrite Hfiles. reflexivity. }
  destruct (rglob_csv w') as [|p' ps'] eqn:Ef'.
  { apply Permutation_sym, Permutation_nil in Hfiles. discriminate. }
  pose proof (pd_concat_permutation _ _ Hloaded) as Hout.
  destruct (loaded w (p :: ps)) as [|d ds] eqn:El.
  { apply Permutation_nil in Hloaded. rewrite Hloaded. reflexivity. }
  destruct (loaded w' (p' :: ps')) as [|d' ds'] eqn:El'.
  { apply Permutation_sym, Permutation_nil in Hloaded. discriminate. }
  exact Hout.
Qed.

Lemma ingest_all_files_order_independent_witness :
  match fst (ingest_all_files two_files []), fst (ingest_all_files two_files_reversed []) with
  | Ok combined, Ok combined' =>
      nrows combined' = nrows combined /\
      forall label, In label (columns combined') <-> In label (columns combined)
  | Raise e, Raise e' => e' = e
  | _, _ => False
  end.
Proof.
  apply (ingest_all_files_order_independent two_files two_files_reversed []).
  - reflexivity.
  - cbn [raw_data_tree two_files two_files_reversed].
    exact (Permutation_rev
             [file_a; mkPath "README.txt" "README"; file_b; mkPath "OLD.CSV" "OLD"]).
  - reflexivity.
Defined.

(** ** Dataset writer and entry point *)

Lemma save_dataset_run (sink : Sink) (df : DataFrame) (t : Trace) (calls : list Call) :
  save_dataset sink df (t, calls) =
    match path_mkdir sink with
    | Raise e => (Raise e, (t, calls ++ [MKDIR]))
    | Ok _ =>
        match df_to_parquet sink df with
        | Raise e => (Raise e, (t, calls ++ [MKDIR; WRITE df]))
        | Ok _ => (Ok tt, (t ++ [SAVED], calls ++ [MKDIR; WRITE df]))
        end
    end.
Proof.
  unfold save_dataset, run_bind, call, logged, logger_info, emit. cbn [fst snd].
  destruct (path_mkdir sink) as [[]|e]; [|reflexivity].
  destruct (df_to_parquet sink df) as [[]|e]; rewrite <- app_assoc; reflexivity.
Qed.

Lemma main_run (w : World) (sink : Sink) (t : Trace) (calls : list Call) :
  main w sink (t, calls) =
    match ingest_all_files w (t ++ [STARTING]) with
    | (Raise e, t1) => (Raise e, (t1, calls))
    | (Ok df, t1) =>
        match save_dataset sink df (t1, calls) with
        | (Raise e, s) => (Raise e, s)
        | (Ok _, (t2, calls2)) => (Ok tt, (t2 ++ [COMPLETE], calls2))
        end
    end.
Proof.
  unfold main, run_bind, logged at 1 2. unfold logger_info at 1. unfold emit. cbn [fst snd].
  fold STARTING.
  destruct (ingest_all_files w (t ++ [STARTING])) as [[df|e] t1]; [|reflexivity].
  destruct (save_dataset sink df (t1, calls)) as [[[]|e] [t2 calls2]]; reflexivity.
Qed.

(** X17. [save_dataset] first asks for the directory, with
    [parents=True, exist_ok=True]; it hands the table to [to_parquet]
    only if that returned, with [index=False] and the fixed output
    path, and logs only if the write returned.  A failure of either
    call goes to the caller, after which nothing more is called or
    logged. *)
Theorem save_dataset_outcomes (sink : Sink) (df : DataFrame) (t : Trace) (calls : list Call) :
  exists r t' made,
    save_dataset sink df (t, calls) = (r, (t', calls ++ made)) /\
    (r = Ok tt <-> path_mkdir sink = Ok tt /\ df_to_parquet sink df = Ok tt) /\
    (r = Ok tt ->
     made = [Mkdir "data/processed" true true;
             ToParquet "data/processed/job_postings.parquet" df false] /\
     t' = t ++ [Logged INFO "Saved dataset -> data/processed/job_postings.parquet"]) /\
    (forall e, r = Raise e -> t' = t) /\
    (forall e, path_mkdir sink = Raise e -> r = Raise e /\ written made = []) /\
    (forall e, path_mkdir sink = Ok tt -> df_to_parquet sink df = Raise e ->
               r = Raise e /\ written made = [df]).
Proof.
  rewrite save_dataset_run.
  destruct (path_mkdir sink) as [[]|e1].
  - destruct (df_to_parquet sink df) as [[]|e2].
    + exists (Ok tt), (t ++ [SAVED]), [MKDIR; WRITE df].
      split; [reflexivity|]. split; [tauto|]. split; [intros _; now split|].
      split; [discriminate|]. split; [discriminate|]. intros e _ H. discriminate H.
    + exists (Raise e2), t, [MKDIR; WRITE df].
      split; [reflexivity|]. split; [split; [discriminate|intros [_ H]; discriminate H]|].
      split; [discriminate|]. split; [reflexivity|]. split; [discriminate|].
      intros e _ H. injection H as <-. now split.
  - exists (Raise e1), t, [MKDIR].
    split; [reflexivity|]. split; [split; [discriminate|intros [H _]; discriminate H]|].
    split; [discriminate|]. split; [reflexivity|]. split.
    + intros e H. injection H as <-. now split.
    + intros e H. discriminate H.
Qed.

(** X18. When [ingest_all_files] raises, [main] raises the same
    exception and calls neither [mkdir] nor [to_parquet]: a failed
    ingestion leaves the output directory and an earlier output file
    untouched. *)
Theorem main_failed_ingestion (w : World) (sink : Sink) (t t0 : Trace)
        (calls : list Call) (e : Exception) :
  fst (ingest_all_files w t0) = Raise e ->
  exists t', main w sink (t, calls) = (Raise e, (t', calls)).
Proof.
  intros H. rewrite ingest_all_files_value in H.
  rewrite main_run.
  pose proof (ingest_all_files_value w (t ++ [STARTING])) as Hv. rewrite H in Hv.
  destruct (ingest_all_files w (t ++ [STARTING])) as [r t1]. cbn [fst] in Hv. subst r.
  now exists t1.
Qed.

Lemma main_failed_ingestion_witness :
  exists t',
    main garbage_files sink_ok ([], []) =
      (Raise (RuntimeError
                "No datasets were loaded. Check file encodings or file integrity."),
       (t', [])).
Proof.
  apply (main_failed_ingestion garbage_files sink_ok [] [] []). reflexivity.
Defined.

(** X19. [main] returns exactly when [ingest_all_files] returns a table
    and both [mkdir] and [to_parquet] of that table return.  It then
    has made these two calls and no other, writing the table that
    [ingest_all_files] returned, and the last two records of the trace
    are the one of the save and the one of completion.  In every run at
    most one table is handed to [to_parquet]. *)
Theorem main_outcomes (w : World) (sink : Sink) (t : Trace) (calls : list Call) :
  exists r t' made,
    main w sink (t, calls) = (r, (t', calls ++ made)) /\
    (r = Ok tt <->
     exists combined,
       fst (ingest_all_files w t) = Ok combined /\
       path_mkdir sink = Ok tt /\ df_to_parquet sink combined = Ok tt) /\
    (r = Ok tt ->
     exists combined,
       fst (ingest_all_files w t) = Ok combined /\
       made = [Mkdir "data/processed" true true;
               ToParquet "data/processed/job_postings.parquet" combined false] /\
       t' = snd (ingest_all_files w (t ++ [STARTING])) ++ [SAVED; COMPLETE]) /\
    List.length (written made) <= 1 /\
    (forall df, In df (written made) -> fst (ingest_all_files w t) = Ok df).
Proof.
  rewrite main_run.
  pose proof (ingest_all_files_value w (t ++ [STARTING])) as Hv.
  rewrite <- (ingest_all_files_value w t) in Hv.
  destruct (ingest_all_files w (t ++ [STARTING])) as [[df|e] t1]; cbn [fst snd] in *.
  - rewrite save_dataset_run.
    destruct (path_mkdir sink) as [[]|e1].
    + destruct (df_to_parquet sink df) as [[]|e2] eqn:Ew.
      * exists (Ok tt), ((t1 ++ [SAVED]) ++ [COMPLETE]), [MKDIR; WRITE df].
        split; [reflexivity|]. split.
        { split; [intros _; now exists df|reflexivity]. }
        split.
        { intros _. exists df. split; [now symmetry|]. split; [reflexivity|].
          now rewrite <- app_assoc. }
        split; [cbn; lia|]. intros d [<-|[]]. now symmetry.
      * exists (Raise e2), t1, [MKDIR; WRITE df].
        split; [reflexivity|]. split.
        { split; [discriminate|]. intros (c & Hc & _ & Hw). congruence. }
        split; [discriminate|].
        split; [cbn; lia|]. intros d [<-|[]]. now symmetry.
    + exists (Raise e1), t1, [MKDIR].
      split; [reflexivity|]. split.
      { split; [discriminate|]. intros (c & _ & Hm & _). discriminate Hm. }
      split; [discriminate|]. split; [cbn; lia|]. intros d [].
  - exists (Raise e), t1, []. rewrite app_nil_r.
    split; [reflexivity|]. split.
    { split; [discriminate|]. intros (c & Hc & _). congruence. }
    split; [discriminate|]. split; [cbn; lia|]. intros d [].
Qed.

(** What holds of a table that [ingest_all_files] returns. *)
Lemma returned_table_sound (w : World) (t : Trace) (df : DataFrame) :
  fst (ingest_all_files w t) = Ok df ->
  df_empty df = false /\
  (forall label, In label TABLE_LABELS -> In label (columns df)) /\
  (forall label, label = "source_file" \/ label = "source_month" ->
     Forall (fun values => List.length values = nrows df /\ full values)
            (values_at label (cols df))).
Proof.
  intros H.
  destruct (ingest_all_files w t) as [r t'] eqn:E. cbn [fst] in H. subst r.
  apply ingest_all_files_ok_inv in E as (_ & _ & Hne & Hc).
  destruct (pd_concat_result _ _ Hc) as (Hidx & Hlabels & _ & Hfull).
  assert (Hl : forall label, In label TABLE_LABELS -> In label (columns df)).
  { intros label Hin. apply Hlabels.
    destruct (loaded w (rglob_csv w)) as [|d ds] eqn:El; [contradiction|].
    exists d. split; [now left|]. apply (loaded_has_labels w (rglob_csv w)); [|exact Hin].
    rewrite El. now left. }
  split; [|split; [exact Hl|]].
  - pose proof (nine_labels _ Hl) as H9. rewrite <- ncols_columns in H9.
    pose proof (loaded_rows w (rglob_csv w)) as Hr.
    assert (Hn : 1 <= nrows df).
    { unfold nrows. rewrite Hidx, length_RangeIndex.
      destruct (loaded w (rglob_csv w)); [contradiction|cbn [List.length] in Hr; lia]. }
    unfold df_empty. apply orb_false_iff. split; apply Nat.eqb_neq; lia.
  - intros label Hlab. apply Hfull. intros d Hd.
    apply loaded_tagged in Hd as (p & enc & raw & _ & _ & -> & _).
    now apply tagged_source_full.
Qed.

(** X20. Whatever [main] hands to [to_parquet] is a table that is not
    empty, carries the seven required labels and the two source labels,
    and has no null in any row under [source_file] and [source_month]. *)
Theorem main_writes_sound_table (w : World) (sink : Sink) (t : Trace) (calls : list Call) :
  exists r t' made,
    main w sink (t, calls) = (r, (t', calls ++ made)) /\
    forall df, In df (written made) ->
      df_empty df = false /\
      (forall label, In label REQUIRED_COLUMNS \/ label = "source_file"
                     \/ label = "source_month" -> In label (columns df)) /\
      (forall label, label = "source_file" \/ label = "source_month" ->
         Forall (fun values =>
                   List.length values = nrows df /\
                   Forall (fun c => isna c = false) values)
                (values_at label (cols df))).
Proof.
  assert (Hsound : forall df, fst (ingest_all_files w (t ++ [STARTING])) = Ok df ->
            df_empty df = false /\
            (forall label, In label REQUIRED_COLUMNS \/ label = "source_file"
                           \/ label = "source_month" -> In label (columns df)) /\
            (forall label, label = "source_file" \/ label = "source_month" ->
               Forall (fun values =>
                         List.length values = nrows df /\
                         Forall (fun c => isna c = false) values)
                      (values_at label (cols df)))).
  { intros df H. destruct (returned_table_sound w _ df H) as (H1 & H2 & H3).
    split; [exact H1|]. split; [|exact H3].
    intros label Hin. apply H2. unfold TABLE_LABELS. rewrite in_app_iff.
    destruct Hin as [Hin|[ -> | -> ]]; [now left|right; now left|right; right; now left]. }
  rewrite main_run.
  destruct (ingest_all_files w (t ++ [STARTING])) as [[df|e] t1]; cbn [fst] in Hsound.
  - rewrite save_dataset_run.
    destruct (path_mkdir sink) as [[]|e1].
    + destruct (df_to_parquet sink df) as [[]|e2].
      * exists (Ok tt), ((t1 ++ [SAVED]) ++ [COMPLETE]), [MKDIR; WRITE df].
        split; [reflexivity|]. intros d [<-|[]]. now apply Hsound.
      * exists (Raise e2), t1, [MKDIR; WRITE df].
        split; [reflexivity|]. intros d [<-|[]]. now apply Hsound.
    + exists (Raise e1), t1, [MKDIR]. split; [reflexivity|]. intros d [].
  - exists (Raise e), t1, []. rewrite app_nil_r. split; [reflexivity|]. intros d [].
Qed.

(** A run that ingests one file with clashing labels and is then
    refused by a serialiser that wants distinct column names. *)
Example main_clash_then_strict_sink :
  exists t',
    main clash_alone sink_strict ([], []) =
      (Raise (ValueError "Duplicate column names found"),
       (t', [MKDIR; WRITE (mkDataFrame (RangeIndex 1) (cols (decoded clash_alone file_a)))])).
Proof. eexists. vm_compute. reflexivity. Qed.

(** ** Records of a run *)

Lemma infos_of_decodes (w : World) (files : list Path) :
  List.length (filter is_info_log (flat_map (decode_events w) files))
  = List.length (filter (fun p => negb (undecodable w p)) files).
Proof.
  induction files as [|p files IH]; [reflexivity|].
  cbn [flat_map filter]. rewrite filter_app, length_app, IH.
  destruct (decode_events_profile w p) as (_ & _ & _ & _ & Hone & He).
  destruct (undecodable w p); cbn [negb List.length]; lia.
Qed.

(** X21. When the directory exists and files are found, the first
    record of the run gives the number of discovered files, counting
    those dropped later.  The run logs one info record for that, one per
    file that some candidate parses, and one more, the last, giving the
    shape of the table if it returns one. *)
Theorem ingest_all_files_info_records (w : World) (t : Trace) :
  raw_data_exists w = true ->
  rglob_csv w <> [] ->
  exists rest,
    snd (ingest_all_files w t) =
      t ++ Logged INFO ("Discovered " ++ PyStr.of_nat (List.length (rglob_csv w))
                        ++ " files.") :: rest /\
    List.length (filter is_info_log rest)
    = List.length (filter (fun p => negb (undecodable w p)) (rglob_csv w))
      + (match fst (ingest_all_files w t) with Ok _ => 1 | Raise _ => 0 end) /\
    (forall combined,
        fst (ingest_all_files w t) = Ok combined ->
        exists middle,
          rest = middle ++ [Logged INFO ("Combined dataset shape: ("
                                         ++ PyStr.of_nat (nrows combined) ++ ", "
                                         ++ PyStr.of_nat (ncols combined) ++ ")")]).
Proof.
  intros He Hf.
  destruct (ingest_all_files_cases w t)
    as [[He' _]|[(_ & Hf' & _)|(_ & _ & d & tail & Hd & Hrun & Htail)]];
    [congruence|contradiction|].
  exists (flat_map (decode_events w) (rglob_csv w) ++ tail).
  split; [now rewrite Hrun, Hd|].
  rewrite filter_app, length_app, infos_of_decodes.
  destruct Htail as [(_ & -> & ->)|[(_ & -> & _ & ->)|(c & _ & _ & -> & ->)]].
  - split; [reflexivity|]. discriminate.
  - split; [reflexivity|]. discriminate.
  - split; [reflexivity|]. intros combined H. injection H as <-.
    now exists (flat_map (decode_events w) (rglob_csv w)).
Qed.

Lemma ingest_all_files_info_records_witness :
  exists rest,
    snd (ingest_all_files two_files []) = Logged INFO "Discovered 2 files." :: rest /\
    List.length (filter is_info_log rest) = 3.
Proof.
  destruct (ingest_all_files_info_records two_files []) as (rest & Hrun & Hn & _).
  - reflexivity.
  - discriminate.
  - exists rest. split; [exact Hrun|exact Hn].
Defined.
